(** * dtsh: the line tokenizer ([libdtsh/tokenize.go])

    A shallow embedding of [Tokenize] and of the two pieces of Go that it
    relies on implicitly: the iteration [for _, char := range s] (which walks
    a string rune by rune, decoding UTF-8) and the conversion
    [string(token)] of a rune slice back to a string. *)

From Stdlib Require Import ZArith List String Ascii Bool Lia DecimalString.
Import ListNotations.

Local Open Scope string_scope.
Local Open Scope list_scope.
Local Open Scope Z_scope.

(** ** Go strings, bytes and runes *)

(** A Go [string] is a sequence of bytes: [String.string], whose characters
    are 8-bit [ascii] values.  A [rune] is an [int32] code point. *)
Definition rune := Z.

Definition byteZ (a : ascii) : Z := Z.of_N (N_of_ascii a).

(** [byte(x)]: the low eight bits of [x]. *)
Definition byteOf (x : Z) : ascii := ascii_of_N (Z.to_N (x mod 256)).

Module Utf8.

(** Constants of Go's [runtime/utf8.go]. *)
Definition runeError : rune := 0xFFFD.
Definition runeSelf : Z := 0x80.
Definition maxRune : rune := 0x10FFFF.
Definition surrogateMin : rune := 0xD800.
Definition surrogateMax : rune := 0xDFFF.
Definition tx : Z := 0x80.
Definition t2 : Z := 0xC0.
Definition t3 : Z := 0xE0.
Definition t4 : Z := 0xF0.
Definition t5 : Z := 0xF8.
Definition maskx : Z := 0x3F.
Definition mask2 : Z := 0x1F.
Definition mask3 : Z := 0x0F.
Definition mask4 : Z := 0x07.
Definition rune1Max : rune := 0x7F.
Definition rune2Max : rune := 0x7FF.
Definition rune3Max : rune := 0xFFFF.
Definition locb : Z := 0x80.
Definition hicb : Z := 0xBF.

(** A continuation byte. *)
Definition cont (b : Z) : bool := (locb <=? b) && (b <=? hicb).

(** The runes that [for _, char := range s] hands to the loop body, in
    order.  A byte below [runeSelf] is its own rune; otherwise the
    iteration decodes one multi-byte sequence, and on anything malformed
    (a stray or missing continuation byte, an overlong form, a surrogate,
    a value above [maxRune]) it yields [runeError] and advances by one
    byte. *)
Fixpoint rangeRunes (s : string) : list rune :=
  match s with
  | EmptyString => []
  | String a0 s1 =>
    let b0 := byteZ a0 in
    let bad := runeError :: rangeRunes s1 in
    if b0 <? runeSelf then b0 :: rangeRunes s1
    else if (t2 <=? b0) && (b0 <? t3) then
      match s1 with
      | String a1 s2 =>
        let b1 := byteZ a1 in
        let r := Z.lor (Z.shiftl (Z.land b0 mask2) 6) (Z.land b1 maskx) in
        if cont b1 && (rune1Max <? r) then r :: rangeRunes s2 else bad
      | _ => bad
      end
    else if (t3 <=? b0) && (b0 <? t4) then
      match s1 with
      | String a1 (String a2 s3) =>
        let b1 := byteZ a1 in
        let b2 := byteZ a2 in
        let r := Z.lor (Z.lor (Z.shiftl (Z.land b0 mask3) 12)
                              (Z.shiftl (Z.land b1 maskx) 6))
                       (Z.land b2 maskx) in
        if cont b1 && cont b2 && (rune2Max <? r)
           && negb ((surrogateMin <=? r) && (r <=? surrogateMax))
        then r :: rangeRunes s3 else bad
      | _ => bad
      end
    else if (t4 <=? b0) && (b0 <? t5) then
      match s1 with
      | String a1 (String a2 (String a3 s4)) =>
        let b1 := byteZ a1 in
        let b2 := byteZ a2 in
        let b3 := byteZ a3 in
        let r := Z.lor (Z.lor (Z.lor (Z.shiftl (Z.land b0 mask4) 18)
                                     (Z.shiftl (Z.land b1 maskx) 12))
                              (Z.shiftl (Z.land b2 maskx) 6))
                       (Z.land b3 maskx) in
        if cont b1 && cont b2 && cont b3 && (rune3Max <? r) && (r <=? maxRune)
        then r :: rangeRunes s4 else bad
      | _ => bad
      end
    else bad
  end.

(** The bytes that [string([]rune{r})] produces for one rune.  The switch
    is on [uint32(r)], so a negative rune counts as out of range. *)
Definition encodeRune (r : rune) : string :=
  let i := r mod 2 ^ 32 in
  let three (c : Z) :=
    String (byteOf (Z.lor t3 (Z.shiftr c 12)))
      (String (byteOf (Z.lor tx (Z.land (Z.shiftr c 6) maskx)))
        (String (byteOf (Z.lor tx (Z.land c maskx))) EmptyString)) in
  if i <=? rune1Max then String (byteOf r) EmptyString
  else if i <=? rune2Max then
    String (byteOf (Z.lor t2 (Z.shiftr r 6)))
      (String (byteOf (Z.lor tx (Z.land r maskx))) EmptyString)
  else if (maxRune <? i) || ((surrogateMin <=? i) && (i <=? surrogateMax))
  then three runeError
  else if i <=? rune3Max then three r
  else
    String (byteOf (Z.lor t4 (Z.shiftr r 18)))
      (String (byteOf (Z.lor tx (Z.land (Z.shiftr r 12) maskx)))
        (String (byteOf (Z.lor tx (Z.land (Z.shiftr r 6) maskx)))
          (String (byteOf (Z.lor tx (Z.land r maskx))) EmptyString))).

(** [string(rs)] for a rune slice [rs]. *)
Fixpoint stringOfRunes (rs : list rune) : string :=
  match rs with
  | [] => EmptyString
  | r :: rs' => (encodeRune r ++ stringOfRunes rs')%string
  end.

End Utf8.

(** ** Tokens *)

Inductive TokenType : Set :=
| TokenRegular
| TokenLiteral.

(** [Type] is reserved in Rocq: the field [Type] of the Go struct is
    [Type_] here. *)
Record Token : Set := mkToken { Type_ : TokenType; Value : string }.

(** ** The rune literals of the scanner *)

Definition r_dquote : rune := 34.     (* double quote *)
Definition r_squote : rune := 39.     (* single quote *)
Definition r_space : rune := 32.      (* space *)
Definition r_backslash : rune := 92.  (* backslash *)
Definition r_n : rune := 110.
Definition r_r : rune := 114.
Definition r_t : rune := 116.
Definition r_b : rune := 98.
Definition r_f : rune := 102.
Definition r_v : rune := 118.
Definition r_newline : rune := 10.    (* \n *)
Definition r_return : rune := 13.     (* \r *)
Definition r_tab : rune := 9.         (* \t *)
Definition r_backspace : rune := 8.   (* \b *)
Definition r_formfeed : rune := 12.   (* \f *)
Definition r_vtab : rune := 11.       (* \v *)

(** ** The state machine *)

Inductive stateT : Set :=
| stateWhitespace
| stateWord
| stateString
| stateLiteral
| stateBackslash.

(** The local variables of [Tokenize]. *)
Record scanner : Set := mkScanner {
  tokens : list Token;
  token : list rune;
  state : stateT;
  lastState : stateT
}.

(** Their values before the loop: [tokens] and [token] are nil slices,
    [state] is [stateWhitespace] and [lastState] has the zero value of
    [stateT], which is [stateWhitespace] too. *)
Definition start : scanner :=
  {| tokens := []; token := []; state := stateWhitespace;
     lastState := stateWhitespace |}.

(** One iteration of the loop body on the rune [char]. *)
Definition step (m : scanner) (char : rune) : scanner :=
  let push (ty : TokenType) :=
    {| tokens := tokens m
                 ++ [ {| Type_ := ty; Value := Utf8.stringOfRunes (token m) |} ];
       token := [];
       state := stateWhitespace;
       lastState := lastState m |} in
  let append (c : rune) (st : stateT) :=
    {| tokens := tokens m; token := token m ++ [c];
       state := st; lastState := lastState m |} in
  let goto (st : stateT) :=
    {| tokens := tokens m; token := token m;
       state := st; lastState := lastState m |} in
  let escape :=
    {| tokens := tokens m; token := token m;
       state := stateBackslash; lastState := state m |} in
  match state m with
  | stateWhitespace =>
    if char =? r_dquote then goto stateString
    else if char =? r_squote then goto stateLiteral
    else if char =? r_space then goto stateWhitespace
    else append char stateWord
  | stateWord =>
    if char =? r_space then push TokenRegular
    else if char =? r_dquote then goto stateString
    else if char =? r_squote then goto stateLiteral
    else append char stateWord
  | stateString =>
    if char =? r_dquote then push TokenRegular
    else if char =? r_backslash then escape
    else append char stateString
  | stateLiteral =>
    if char =? r_squote then push TokenLiteral
    else if char =? r_backslash then escape
    else append char stateLiteral
  | stateBackslash =>
    if char =? r_n then append r_newline (lastState m)
    else if char =? r_r then append r_return (lastState m)
    else if char =? r_t then append r_tab (lastState m)
    else if char =? r_b then append r_backspace (lastState m)
    else if char =? r_f then append r_formfeed (lastState m)
    else if char =? r_v then append r_vtab (lastState m)
    else append char (lastState m)
  end.

(** The loop over a sequence of runes. *)
Definition scan (m : scanner) (rs : list rune) : scanner :=
  fold_left step rs m.

(** [Tokenize(s)]: the loop runs over the runes of [s] followed by one
    space, and the
    function returns [tokens]. *)
Definition Tokenize (s : string) : list Token :=
  tokens (scan start (Utf8.rangeRunes (s ++ " ")%string)).

(** ** Writing inputs *)

(** The bytes of the two quote characters and of the backslash, for
    building inputs. *)
Definition dq : string := String (ascii_of_nat 34) EmptyString.
Definition sq : string := String (ascii_of_nat 39) EmptyString.
Definition bs : string := String (ascii_of_nat 92) EmptyString.
Definition nl : string := String (ascii_of_nat 10) EmptyString.
Definition tab : string := String (ascii_of_nat 9) EmptyString.

(** ** The state machine as a table

    The transition table of the doc comment of [Tokenize] (the specification
    gives the same table), one constructor per row.  [tableStep m c m'] reads:
    in configuration [m], on the character [c], the table prescribes [m'].
    The column [savedState] of the specification is [lastState]. *)

Definition other (c : rune) : Prop :=
  c <> r_dquote /\ c <> r_squote /\ c <> r_space.

Definition flushed (ts : list Token) (ty : TokenType) (tk : list rune) :
  list Token :=
  ts ++ [mkToken ty (Utf8.stringOfRunes tk)].

Inductive tableStep : scanner -> rune -> scanner -> Prop :=
| row_ws_dquote ts tk sv :
    tableStep (mkScanner ts tk stateWhitespace sv) r_dquote
              (mkScanner ts tk stateString sv)
| row_ws_squote ts tk sv :
    tableStep (mkScanner ts tk stateWhitespace sv) r_squote
              (mkScanner ts tk stateLiteral sv)
| row_ws_space ts tk sv :
    tableStep (mkScanner ts tk stateWhitespace sv) r_space
              (mkScanner ts tk stateWhitespace sv)
| row_ws_other ts tk sv c :
    other c ->
    tableStep (mkScanner ts tk stateWhitespace sv) c
              (mkScanner ts (tk ++ [c]) stateWord sv)
| row_word_space ts tk sv :
    tableStep (mkScanner ts tk stateWord sv) r_space
              (mkScanner (flushed ts TokenRegular tk) [] stateWhitespace sv)
| row_word_dquote ts tk sv :
    tableStep (mkScanner ts tk stateWord sv) r_dquote
              (mkScanner ts tk stateString sv)
| row_word_squote ts tk sv :
    tableStep (mkScanner ts tk stateWord sv) r_squote
              (mkScanner ts tk stateLiteral sv)
| row_word_other ts tk sv c :
    other c ->
    tableStep (mkScanner ts tk stateWord sv) c
              (mkScanner ts (tk ++ [c]) stateWord sv)
| row_string_dquote ts tk sv :
    tableStep (mkScanner ts tk stateString sv) r_dquote
              (mkScanner (flushed ts TokenRegular tk) [] stateWhitespace sv)
| row_string_backslash ts tk sv :
    tableStep (mkScanner ts tk stateString sv) r_backslash
              (mkScanner ts tk stateBackslash stateString)
| row_string_other ts tk sv c :
    c <> r_dquote -> c <> r_backslash ->
    tableStep (mkScanner ts tk stateString sv) c
              (mkScanner ts (tk ++ [c]) stateString sv)
| row_literal_squote ts tk sv :
    tableStep (mkScanner ts tk stateLiteral sv) r_squote
              (mkScanner (flushed ts TokenLiteral tk) [] stateWhitespace sv)
| row_literal_backslash ts tk sv :
    tableStep (mkScanner ts tk stateLiteral sv) r_backslash
              (mkScanner ts tk stateBackslash stateLiteral)
| row_literal_other ts tk sv c :
    c <> r_squote -> c <> r_backslash ->
    tableStep (mkScanner ts tk stateLiteral sv) c
              (mkScanner ts (tk ++ [c]) stateLiteral sv)
| row_backslash_n ts tk sv :
    tableStep (mkScanner ts tk stateBackslash sv) r_n
              (mkScanner ts (tk ++ [r_newline]) sv sv)
| row_backslash_r ts tk sv :
    tableStep (mkScanner ts tk stateBackslash sv) r_r
              (mkScanner ts (tk ++ [r_return]) sv sv)
| row_backslash_t ts tk sv :
    tableStep (mkScanner ts tk stateBackslash sv) r_t
              (mkScanner ts (tk ++ [r_tab]) sv sv)
| row_backslash_b ts tk sv :
    tableStep (mkScanner ts tk stateBackslash sv) r_b
              (mkScanner ts (tk ++ [r_backspace]) sv sv)
| row_backslash_f ts tk sv :
    tableStep (mkScanner ts tk stateBackslash sv) r_f
              (mkScanner ts (tk ++ [r_formfeed]) sv sv)
| row_backslash_v ts tk sv :
    tableStep (mkScanner ts tk stateBackslash sv) r_v
              (mkScanner ts (tk ++ [r_vtab]) sv sv)
| row_backslash_other ts tk sv c :
    c <> r_n -> c <> r_r -> c <> r_t -> c <> r_b -> c <> r_f -> c <> r_v ->
    tableStep (mkScanner ts tk stateBackslash sv) c
              (mkScanner ts (tk ++ [c]) sv sv).

(** A run of the table over a sequence of characters. *)
Inductive tableRun : scanner -> list rune -> scanner -> Prop :=
| run_done m : tableRun m [] m
| run_next m c m1 cs m2 :
    tableStep m c m1 -> tableRun m1 cs m2 -> tableRun m (c :: cs) m2.

(** The character that the table's Backslash rows append for the escaped
    character [c]. *)
Definition decodedEscape (c : rune) : rune :=
  if c =? r_n then r_newline
  else if c =? r_r then r_return
  else if c =? r_t then r_tab
  else if c =? r_b then r_backspace
  else if c =? r_f then r_formfeed
  else if c =? r_v then r_vtab
  else c.

(** ** Where the characters of a token come from

    The scanner once more, with every pending character tagged by the branch
    that appended it: [Copied] by one of the [default] branches of the four
    text states (the character of the input itself), [Decoded] by the
    backslash state.  Forgetting the tags gives back [step]
    ([forget_tstep] below). *)

Inductive origin : Set :=
| Copied
| Decoded.

Record tracedToken : Set := mkTraced {
  tType : TokenType;
  tCells : list (rune * origin)
}.

Record tscanner : Set := mkTScanner {
  ttokens : list tracedToken;
  ttoken : list (rune * origin);
  tstate : stateT;
  tlastState : stateT
}.

Definition tstart : tscanner :=
  {| ttokens := []; ttoken := []; tstate := stateWhitespace;
     tlastState := stateWhitespace |}.

Definition tstep (m : tscanner) (char : rune) : tscanner :=
  let push (ty : TokenType) :=
    {| ttokens := ttokens m ++ [ {| tType := ty; tCells := ttoken m |} ];
       ttoken := [];
       tstate := stateWhitespace;
       tlastState := tlastState m |} in
  let append (c : rune) (o : origin) (st : stateT) :=
    {| ttokens := ttokens m; ttoken := ttoken m ++ [(c, o)];
       tstate := st; tlastState := tlastState m |} in
  let goto (st : stateT) :=
    {| ttokens := ttokens m; ttoken := ttoken m;
       tstate := st; tlastState := tlastState m |} in
  let escape :=
    {| ttokens := ttokens m; ttoken := ttoken m;
       tstate := stateBackslash; tlastState := tstate m |} in
  match tstate m with
  | stateWhitespace =>
    if char =? r_dquote then goto stateString
    else if char =? r_squote then goto stateLiteral
    else if char =? r_space then goto stateWhitespace
    else append char Copied stateWord
  | stateWord =>
    if char =? r_space then push TokenRegular
    else if char =? r_dquote then goto stateString
    else if char =? r_squote then goto stateLiteral
    else append char Copied stateWord
  | stateString =>
    if char =? r_dquote then push TokenRegular
    else if char =? r_backslash then escape
    else append char Copied stateString
  | stateLiteral =>
    if char =? r_squote then push TokenLiteral
    else if char =? r_backslash then escape
    else append char Copied stateLiteral
  | stateBackslash =>
    if char =? r_n then append r_newline Decoded (tlastState m)
    else if char =? r_r then append r_return Decoded (tlastState m)
    else if char =? r_t then append r_tab Decoded (tlastState m)
    else if char =? r_b then append r_backspace Decoded (tlastState m)
    else if char =? r_f then append r_formfeed Decoded (tlastState m)
    else if char =? r_v then append r_vtab Decoded (tlastState m)
    else append char Decoded (tlastState m)
  end.

Definition tscan (m : tscanner) (rs : list rune) : tscanner :=
  fold_left tstep rs m.

Definition TokenizeTraced (s : string) : list tracedToken :=
  ttokens (tscan tstart (Utf8.rangeRunes (s ++ " ")%string)).

Definition forgetToken (t : tracedToken) : Token :=
  {| Type_ := tType t; Value := Utf8.stringOfRunes (map fst (tCells t)) |}.

Definition forget (m : tscanner) : scanner :=
  {| tokens := map forgetToken (ttokens m);
     token := map fst (ttoken m);
     state := tstate m;
     lastState := tlastState m |}.

(** The delimiter of a token's own quoting context. *)
Definition ownDelimiter (ty : TokenType) : rune :=
  match ty with
  | TokenRegular => r_dquote
  | TokenLiteral => r_squote
  end.

(** ** Predicates on inputs *)

(** A whitespace character in the sense of Go's [unicode.IsSpace], on the
    Latin-1 range. *)
Definition isSpace (r : rune) : bool :=
  (r =? 9) || (r =? 10) || (r =? 11) || (r =? 12) || (r =? 13) || (r =? 32)
  || (r =? 0x85) || (r =? 0xA0).

(** The value holds no quote character and no backslash. *)
Definition plain (r : rune) : bool :=
  negb (r =? r_dquote) && negb (r =? r_squote) && negb (r =? r_backslash).

(** The string is well-formed UTF-8: converting its runes back to a string
    gives the string itself.  Every value that [string(token)] produces is of
    this form. *)
Definition wellFormed (v : string) : Prop :=
  Utf8.stringOfRunes (Utf8.rangeRunes v) = v.

(** The states in which a token is being read between quotes. *)
Definition insideQuote (st : stateT) : Prop :=
  st = stateString \/ st = stateLiteral \/ st = stateBackslash.

(** What the loop has established about [lastState] at every iteration: it
    was only ever assigned inside a quoted state, and the backslash state is
    entered only by such an assignment. *)
Definition savedOk (m : scanner) : Prop :=
  (lastState m = stateWhitespace \/ lastState m = stateString
   \/ lastState m = stateLiteral)
  /\ (state m = stateBackslash -> lastState m <> stateWhitespace).

(** What the tagged scanner maintains.  The pending characters that were
    copied from the input exclude the delimiters that the current state would
    not have copied; the whitespace state has nothing pending. *)
Definition cellsOk (st : stateT) (cells : list (rune * origin)) : Prop :=
  match st with
  | stateWhitespace => cells = []
  | stateWord =>
    forall c, In (c, Copied) cells -> c <> r_dquote /\ c <> r_squote
  | stateString => forall c, In (c, Copied) cells -> c <> r_dquote
  | stateLiteral => forall c, In (c, Copied) cells -> c <> r_squote
  | stateBackslash => False
  end.

Definition tokenOk (t : tracedToken) : Prop :=
  forall c, In (c, Copied) (tCells t) -> c <> ownDelimiter (tType t).

Definition tracedOk (m : tscanner) : Prop :=
  Forall tokenOk (ttokens m)
  /\ match tstate m with
     | stateBackslash =>
       (tlastState m = stateString \/ tlastState m = stateLiteral)
       /\ cellsOk (tlastState m) (ttoken m)
     | st => cellsOk st (ttoken m)
     end.

(** A Unicode scalar value: what [range] yields and what a conversion to
    string encodes as it is. *)
Definition validRune (r : rune) : Prop :=
  0 <= r <= Utf8.maxRune
  /\ ~ (Utf8.surrogateMin <= r <= Utf8.surrogateMax).

(** The pending runes are scalar values and the finished values are
    well-formed. *)
Definition valuesOk (m : scanner) : Prop :=
  Forall validRune (token m)
  /\ Forall (fun t => wellFormed (Value t)) (tokens m).

(** ** Further invariants of the loop *)

(** Between tokens nothing is pending. *)
Definition idleOk (m : scanner) : Prop :=
  state m = stateWhitespace -> token m = [].

(** [continues ts m m']: the scanner [m] is the scanner [m'] with the
    finished tokens [ts] in front; [lastState] has to agree only where it is
    read, in the backslash state. *)
Definition continues (ts : list Token) (m m' : scanner) : Prop :=
  tokens m = ts ++ tokens m'
  /\ token m = token m'
  /\ state m = state m'
  /\ (state m = stateBackslash -> lastState m = lastState m').

(** One for a state in which a token has been begun, zero between tokens. *)
Definition begun (st : stateT) : nat :=
  match st with
  | stateWhitespace => 0
  | _ => 1
  end.

(** The values of a token sequence, one after the other. *)
Fixpoint joinValues (ts : list Token) : string :=
  match ts with
  | [] => EmptyString
  | t :: ts' => (Value t ++ joinValues ts')%string
  end.

Definition noSpace (r : rune) : bool := negb (r =? r_space).

(** A token as a word gives it: Regular, not empty, without a space. *)
Definition wordToken (t : Token) : Prop :=
  Type_ t = TokenRegular
  /\ Value t <> EmptyString
  /\ ~ In r_space (Utf8.rangeRunes (Value t)).

(** What the loop maintains on a line without quote characters, after the
    runes [rs]: it is between words or in a word, the pending runes hold no
    space, the finished tokens are words, and the values followed by the
    pending runes are the runes read so far without the spaces. *)
Definition wordsOk (rs : list rune) (m : scanner) : Prop :=
  (state m = stateWhitespace /\ token m = []
   \/ state m = stateWord /\ token m <> [])
  /\ ~ In r_space (token m)
  /\ Forall validRune (token m)
  /\ Forall wordToken (tokens m)
  /\ (joinValues (tokens m) ++ Utf8.stringOfRunes (token m))%string
     = Utf8.stringOfRunes (filter noSpace rs).

(** What the loop maintains on a line without a single quote: the literal
    state is neither entered nor saved, and no token is Literal. *)
Definition noLiteral (m : scanner) : Prop :=
  state m <> stateLiteral
  /\ lastState m <> stateLiteral
  /\ Forall (fun t => Type_ t = TokenRegular) (tokens m).

(** The six characters that the backslash state decodes to. *)
Definition decodedControl (r : rune) : Prop :=
  r = r_newline \/ r = r_return \/ r = r_tab
  \/ r = r_backspace \/ r = r_formfeed \/ r = r_vtab.

(** The pending runes and the runes of the finished values all satisfy
    [Q]. *)
Definition runesWithin (Q : rune -> Prop) (m : scanner) : Prop :=
  Forall validRune (token m)
  /\ Forall Q (token m)
  /\ Forall (fun t => Forall Q (Utf8.rangeRunes (Value t))) (tokens m).


(** ** The read loop ([main.go])

    Standard output is modelled as the string of everything written to it,
    and standard input as the lines that [scanner.Scan] and [scanner.Text]
    yield, in order. *)

(** [fmt.Printf("%d", i)] for an index [i]. *)
Definition formatInt (i : nat) : string :=
  NilZero.string_of_uint (Nat.to_uint i).

(** The [switch token.Type]. *)
Definition typeTag (ty : TokenType) : string :=
  match ty with
  | TokenRegular => " reg "
  | TokenLiteral => " lit "
  end.

(** The inner loop [for i, token := range tokens], from index [i] on:
    the index, the tag, then [fmt.Println(token.Value)]. *)
Fixpoint printTokens (i : nat) (ts : list Token) : string :=
  match ts with
  | [] => EmptyString
  | t :: ts' =>
    (formatInt i ++ typeTag (Type_ t) ++ Value t ++ nl
     ++ printTokens (S i) ts')%string
  end.

(** The body of the outer loop for one line: the tokens, then the
    prompt. *)
Definition printLine (line : string) : string :=
  (printTokens 0 (Tokenize line) ++ "> ")%string.

(** [main]: the prompt, then the body for every line read. *)
Definition mainOutput (lines : list string) : string :=
  fold_left (fun out line => (out ++ printLine line)%string) lines "> "%string.

(** The number of newline bytes in a string. *)
Fixpoint countNewlines (s : string) : nat :=
  match s with
  | EmptyString => 0
  | String a s' =>
    ((if Ascii.eqb a (ascii_of_nat 10) then 1 else 0) + countNewlines s')%nat
  end.

(** The prompt, [n] times. *)
Fixpoint prompts (n : nat) : string :=
  match n with
  | O => EmptyString
  | S n' => ("> " ++ prompts n')%string
  end.

(** The number of tokens of all the lines together. *)
Definition tokenCount (lines : list string) : nat :=
  fold_right (fun line n => (List.length (Tokenize line) + n)%nat) 0%nat lines.

(** * Properties *)

(** ** The decoding done by [range] *)

Ltac split_ifs :=
  repeat match goal with
         | |- context [if ?c then _ else _] => destruct c
         end.

(** The space that [Tokenize] appends is decoded on its own, whatever
    precedes it: a space is not a continuation byte, so a truncated
    multi-byte sequence before it is malformed with or without it. *)
Lemma rangeRunes_app_space (s : string) :
  Utf8.rangeRunes (s ++ " ")%string = Utf8.rangeRunes s ++ [r_space].
Proof.
  remember (String.length s) as n eqn:Hn.
  revert s Hn. induction n as [n IH] using lt_wf_ind. intros s Hn.
  assert (IH' : forall t, (String.length t < String.length s)%nat ->
                Utf8.rangeRunes (t ++ " ")%string
                = Utf8.rangeRunes t ++ [r_space]).
  { intros t Ht. apply (IH (String.length t)); [lia | reflexivity]. }
  clear IH Hn n.
  destruct s as [|a0 s1]; [reflexivity|].
  pose proof (IH' s1 ltac:(simpl; lia)) as H1.
  change (String a0 s1 ++ " ")%string with (String a0 (s1 ++ " ")).
  cbn [Utf8.rangeRunes]. rewrite H1.
  destruct (byteZ a0 <? Utf8.runeSelf); [reflexivity|].
  destruct s1 as [|a1 s2].
  { cbn [append]. change (Utf8.cont (byteZ " ")) with false.
    rewrite ?andb_false_r. cbn [andb]. split_ifs; reflexivity. }
  change (String a1 s2 ++ " ")%string with (String a1 (s2 ++ " ")). cbv iota.
  rewrite (IH' s2) by (simpl; lia).
  destruct s2 as [|a2 s3].
  { cbn [append]. change (Utf8.cont (byteZ " ")) with false.
    rewrite ?andb_false_r. cbn [andb]. split_ifs; reflexivity. }
  change (String a2 s3 ++ " ")%string with (String a2 (s3 ++ " ")). cbv iota.
  rewrite (IH' s3) by (simpl; lia).
  destruct s3 as [|a3 s4].
  { cbn [append]. change (Utf8.cont (byteZ " ")) with false.
    rewrite ?andb_false_r. cbn [andb]. split_ifs; reflexivity. }
  change (String a3 s4 ++ " ")%string with (String a3 (s4 ++ " ")). cbv iota.
  rewrite (IH' s4) by (simpl; lia).
  split_ifs; reflexivity.
Qed.

(** ** UTF-8: encoding then decoding *)

Lemma byteZ_range (a : ascii) : 0 <= byteZ a < 256.
Proof.
  unfold byteZ. pose proof (N_ascii_bounded a) as H. lia.
Qed.

Lemma byteZ_byteOf (x : Z) : byteZ (byteOf x) = x mod 256.
Proof.
  unfold byteZ, byteOf.
  pose proof (Z.mod_pos_bound x 256 ltac:(lia)) as H.
  rewrite N_ascii_embedding by lia. lia.
Qed.

Lemma land_shifted_low (a b k : Z) :
  0 <= k -> 0 <= b < 2 ^ k -> Z.land (a * 2 ^ k) b = 0.
Proof.
  intros Hk Hb. apply Z.bits_inj'. intros n Hn.
  rewrite Z.land_spec, Z.bits_0.
  destruct (Z.lt_ge_cases n k) as [Hlt|Hge].
  - rewrite Z.mul_pow2_bits_low by lia. reflexivity.
  - destruct (Z.eq_dec b 0) as [->|Hb0].
    + rewrite Z.bits_0. apply andb_false_r.
    + rewrite (Z.bits_above_log2 b n); [apply andb_false_r | lia |].
      apply Z.lt_le_trans with k; [| exact Hge].
      apply Z.log2_lt_pow2; lia.
Qed.

Lemma lor_shifted (a b k : Z) :
  0 <= k -> 0 <= b < 2 ^ k -> Z.lor (a * 2 ^ k) b = a * 2 ^ k + b.
Proof.
  intros Hk Hb. rewrite <- Z.add_lor_land.
  rewrite land_shifted_low by assumption. lia.
Qed.

Lemma land_mask (x k : Z) : 0 <= k -> Z.land x (2 ^ k - 1) = x mod 2 ^ k.
Proof.
  intros Hk. rewrite <- Z.land_ones by exact Hk.
  rewrite Z.ones_equiv. reflexivity.
Qed.

Ltac dlia := Z.to_euclidean_division_equations; lia.

(** Replace the comparisons that linear arithmetic decides by their value,
    then take the branches that this selects. *)
Ltac settle :=
  repeat match goal with
         | |- context [?a <? ?b] =>
           first [ replace (a <? b) with true
                     by (symmetry; apply Z.ltb_lt; lia)
                 | replace (a <? b) with false
                     by (symmetry; apply Z.ltb_ge; lia) ]
         | |- context [?a <=? ?b] =>
           first [ replace (a <=? b) with true
                     by (symmetry; apply Z.leb_le; lia)
                 | replace (a <=? b) with false
                     by (symmetry; apply Z.leb_gt; lia) ]
         end;
  cbn [andb orb negb]; cbv beta iota.

(** Decoding a well-formed sequence of two bytes. *)
Lemma decode2 (a0 a1 : ascii) (rest : string) (hi lo : Z) :
  byteZ a0 = 192 + hi -> byteZ a1 = 128 + lo ->
  0 <= hi < 32 -> 0 <= lo < 64 -> 128 <= hi * 64 + lo ->
  Utf8.rangeRunes (String a0 (String a1 rest))
  = (hi * 64 + lo) :: Utf8.rangeRunes rest.
Proof.
  intros H0 H1 Hhi Hlo Hr.
  remember (String a1 rest) as s1 eqn:Es1.
  cbn [Utf8.rangeRunes]. subst s1. cbv beta iota. rewrite H0, H1.
  unfold Utf8.cont, Utf8.runeSelf, Utf8.t2, Utf8.t3, Utf8.rune1Max,
    Utf8.locb, Utf8.hicb, Utf8.mask2, Utf8.maskx.
  settle.
  change 0x1F with (2 ^ 5 - 1). change 0x3F with (2 ^ 6 - 1).
  rewrite !land_mask by lia. rewrite Z.shiftl_mul_pow2 by lia.
  replace ((192 + hi) mod 2 ^ 5) with hi by (change (2 ^ 5) with 32; dlia).
  replace ((128 + lo) mod 2 ^ 6) with lo by (change (2 ^ 6) with 64; dlia).
  rewrite lor_shifted by (change (2 ^ 6) with 64; lia).
  change (2 ^ 6) with 64.
  settle; reflexivity.
Qed.

Lemma decode1 (a0 : ascii) (rest : string) :
  byteZ a0 < 128 ->
  Utf8.rangeRunes (String a0 rest) = byteZ a0 :: Utf8.rangeRunes rest.
Proof.
  intros H0. cbn [Utf8.rangeRunes]. unfold Utf8.runeSelf.
  settle; reflexivity.
Qed.

(** Decoding a well-formed sequence of three bytes. *)
Lemma decode3 (a0 a1 a2 : ascii) (rest : string) (x y z : Z) :
  byteZ a0 = 224 + x -> byteZ a1 = 128 + y -> byteZ a2 = 128 + z ->
  0 <= x < 16 -> 0 <= y < 64 -> 0 <= z < 64 ->
  2048 <= x * 4096 + y * 64 + z ->
  ~ (55296 <= x * 4096 + y * 64 + z <= 57343) ->
  Utf8.rangeRunes (String a0 (String a1 (String a2 rest)))
  = (x * 4096 + y * 64 + z) :: Utf8.rangeRunes rest.
Proof.
  intros H0 H1 H2 Hx Hy Hz Hr Hs.
  remember (String a1 (String a2 rest)) as s1 eqn:Es1.
  cbn [Utf8.rangeRunes]. subst s1. cbv beta iota. rewrite H0, H1, H2.
  unfold Utf8.cont, Utf8.runeSelf, Utf8.t2, Utf8.t3, Utf8.t4, Utf8.rune2Max,
    Utf8.locb, Utf8.hicb, Utf8.mask3, Utf8.maskx, Utf8.surrogateMin,
    Utf8.surrogateMax.
  settle.
  change 0x0F with (2 ^ 4 - 1). change 0x3F with (2 ^ 6 - 1).
  rewrite !land_mask by lia. rewrite !Z.shiftl_mul_pow2 by lia.
  replace ((224 + x) mod 2 ^ 4) with x by (change (2 ^ 4) with 16; dlia).
  replace ((128 + y) mod 2 ^ 6) with y by (change (2 ^ 6) with 64; dlia).
  replace ((128 + z) mod 2 ^ 6) with z by (change (2 ^ 6) with 64; dlia).
  rewrite (lor_shifted x (y * 2 ^ 6) 12)
    by (change (2 ^ 6) with 64; change (2 ^ 12) with 4096; lia).
  replace (x * 2 ^ 12 + y * 2 ^ 6) with ((x * 64 + y) * 2 ^ 6)
    by (change (2 ^ 6) with 64; change (2 ^ 12) with 4096; lia).
  rewrite lor_shifted by (change (2 ^ 6) with 64; lia).
  change (2 ^ 6) with 64.
  replace ((x * 64 + y) * 64 + z) with (x * 4096 + y * 64 + z) by lia.
  settle.
  destruct (Z.leb_spec 55296 (x * 4096 + y * 64 + z));
    destruct (Z.leb_spec (x * 4096 + y * 64 + z) 57343);
    cbn [andb negb]; (reflexivity || lia).
Qed.

(** Decoding a well-formed sequence of four bytes. *)
Lemma decode4 (a0 a1 a2 a3 : ascii) (rest : string) (w x y z : Z) :
  byteZ a0 = 240 + w -> byteZ a1 = 128 + x -> byteZ a2 = 128 + y ->
  byteZ a3 = 128 + z ->
  0 <= w < 8 -> 0 <= x < 64 -> 0 <= y < 64 -> 0 <= z < 64 ->
  65536 <= w * 262144 + x * 4096 + y * 64 + z <= 1114111 ->
  Utf8.rangeRunes (String a0 (String a1 (String a2 (String a3 rest))))
  = (w * 262144 + x * 4096 + y * 64 + z) :: Utf8.rangeRunes rest.
Proof.
  intros H0 H1 H2 H3 Hw Hx Hy Hz Hr.
  remember (String a1 (String a2 (String a3 rest))) as s1 eqn:Es1.
  cbn [Utf8.rangeRunes]. subst s1. cbv beta iota. rewrite H0, H1, H2, H3.
  unfold Utf8.cont, Utf8.runeSelf, Utf8.t2, Utf8.t3, Utf8.t4, Utf8.t5,
    Utf8.rune3Max, Utf8.maxRune, Utf8.locb, Utf8.hicb, Utf8.mask4, Utf8.maskx.
  settle.
  change 0x07 with (2 ^ 3 - 1). change 0x3F with (2 ^ 6 - 1).
  rewrite !land_mask by lia. rewrite !Z.shiftl_mul_pow2 by lia.
  replace ((240 + w) mod 2 ^ 3) with w by (change (2 ^ 3) with 8; dlia).
  replace ((128 + x) mod 2 ^ 6) with x by (change (2 ^ 6) with 64; dlia).
  replace ((128 + y) mod 2 ^ 6) with y by (change (2 ^ 6) with 64; dlia).
  replace ((128 + z) mod 2 ^ 6) with z by (change (2 ^ 6) with 64; dlia).
  rewrite (lor_shifted w (x * 2 ^ 12) 18)
    by (change (2 ^ 12) with 4096; change (2 ^ 18) with 262144; lia).
  replace (w * 2 ^ 18 + x * 2 ^ 12) with ((w * 64 + x) * 2 ^ 12)
    by (change (2 ^ 12) with 4096; change (2 ^ 18) with 262144; lia).
  rewrite (lor_shifted (w * 64 + x) (y * 2 ^ 6) 12)
    by (change (2 ^ 6) with 64; change (2 ^ 12) with 4096; lia).
  replace ((w * 64 + x) * 2 ^ 12 + y * 2 ^ 6)
    with (((w * 64 + x) * 64 + y) * 2 ^ 6)
    by (change (2 ^ 6) with 64; change (2 ^ 12) with 4096; lia).
  rewrite lor_shifted by (change (2 ^ 6) with 64; lia).
  change (2 ^ 6) with 64.
  replace (((w * 64 + x) * 64 + y) * 64 + z)
    with (w * 262144 + x * 4096 + y * 64 + z) by lia.
  settle; reflexivity.
Qed.

Lemma lor_const (c a k x : Z) :
  c = a * 2 ^ k -> 0 <= k -> 0 <= x < 2 ^ k -> Z.lor c x = c + x.
Proof. intros -> Hk Hx. apply lor_shifted; assumption. Qed.

(** The first byte of an encoding: a prefix [c], the top [k] bits of which
    are set, over the high bits of the rune. *)
Lemma lead_byte (c a k r n : Z) :
  c = a * 2 ^ k -> 0 <= k -> 0 <= n -> 0 <= r / 2 ^ n < 2 ^ k ->
  0 <= c + r / 2 ^ n < 256 ->
  byteZ (byteOf (Z.lor c (Z.shiftr r n))) = c + r / 2 ^ n.
Proof.
  intros Hc Hk Hn Hr Hb. rewrite byteZ_byteOf, Z.shiftr_div_pow2 by exact Hn.
  rewrite (lor_const c a k) by assumption. apply Z.mod_small. exact Hb.
Qed.

(** A continuation byte of an encoding: six bits of the rune under the
    prefix [tx]. *)
Lemma cont_byte (r n : Z) :
  0 <= n ->
  byteZ (byteOf (Z.lor Utf8.tx (Z.land (Z.shiftr r n) Utf8.maskx)))
  = 128 + (r / 2 ^ n) mod 64.
Proof.
  intros Hn. unfold Utf8.tx, Utf8.maskx.
  rewrite byteZ_byteOf, Z.shiftr_div_pow2 by exact Hn.
  change 0x3F with (2 ^ 6 - 1). rewrite land_mask by lia.
  rewrite (lor_const 0x80 2 6) by (change (2 ^ 6) with 64; (reflexivity || dlia)).
  change (2 ^ 6) with 64. dlia.
Qed.

Lemma cont_byte0 (r : Z) :
  byteZ (byteOf (Z.lor Utf8.tx (Z.land r Utf8.maskx))) = 128 + r mod 64.
Proof.
  pose proof (cont_byte r 0 ltac:(lia)) as H.
  rewrite Z.shiftr_0_r in H. rewrite H. change (2 ^ 0) with 1.
  rewrite Z.div_1_r. reflexivity.
Qed.

(** Decoding undoes encoding, for every rune that is a Unicode scalar
    value. *)
Lemma decode_encode (r : rune) (rest : string) :
  validRune r ->
  Utf8.rangeRunes (Utf8.encodeRune r ++ rest)%string
  = r :: Utf8.rangeRunes rest.
Proof.
  unfold validRune, Utf8.maxRune, Utf8.surrogateMin, Utf8.surrogateMax.
  intros [Hr Hs]. unfold Utf8.encodeRune.
  rewrite (Z.mod_small r (2 ^ 32)) by lia.
  unfold Utf8.rune1Max, Utf8.rune2Max, Utf8.rune3Max, Utf8.maxRune,
    Utf8.surrogateMin, Utf8.surrogateMax.
  destruct (Z.le_gt_cases r 127) as [H1|H1];
    [| destruct (Z.le_gt_cases r 2047) as [H2|H2];
       [| destruct (Z.le_gt_cases r 65535) as [H3|H3]]].
  - settle. cbn [append]. rewrite decode1; rewrite byteZ_byteOf;
      rewrite Z.mod_small by lia; (reflexivity || lia).
  - settle. cbn [append].
    rewrite (decode2 _ _ _ (r / 64) (r mod 64)).
    + f_equal. dlia.
    + apply (lead_byte Utf8.t2 3 6 r 6);
        try (change (2 ^ 6) with 64; unfold Utf8.t2); (reflexivity || dlia).
    + apply cont_byte0.
    + dlia.
    + dlia.
    + dlia.
  - assert (Hs' : r < 55296 \/ 57343 < r) by lia.
    replace ((1114111 <? r) || ((55296 <=? r) && (r <=? 57343))) with false
      by (destruct Hs'; settle; reflexivity).
    settle. cbn [append].
    rewrite (decode3 _ _ _ _ (r / 4096) ((r / 64) mod 64) (r mod 64)).
    + f_equal. dlia.
    + apply (lead_byte Utf8.t3 14 4 r 12);
        try (change (2 ^ 4) with 16; change (2 ^ 12) with 4096;
             unfold Utf8.t3); (reflexivity || dlia).
    + apply (cont_byte r 6). lia.
    + apply cont_byte0.
    + dlia.
    + dlia.
    + dlia.
    + dlia.
    + dlia.
  - replace ((1114111 <? r) || ((55296 <=? r) && (r <=? 57343))) with false
      by (settle; reflexivity).
    settle. cbn [append].
    rewrite (decode4 _ _ _ _ _ (r / 262144) ((r / 4096) mod 64)
                     ((r / 64) mod 64) (r mod 64)).
    + f_equal. dlia.
    + apply (lead_byte Utf8.t4 30 3 r 18);
        try (change (2 ^ 3) with 8; change (2 ^ 18) with 262144;
             unfold Utf8.t4); (reflexivity || dlia).
    + apply (cont_byte r 12). lia.
    + apply (cont_byte r 6). lia.
    + apply cont_byte0.
    + dlia.
    + dlia.
    + dlia.
    + dlia.
    + dlia.
Qed.

(** ** UTF-8: what decoding yields *)

Lemma value2 (b0 b1 : Z) :
  Z.lor (Z.shiftl (Z.land b0 Utf8.mask2) 6) (Z.land b1 Utf8.maskx)
  = (b0 mod 32) * 64 + b1 mod 64.
Proof.
  unfold Utf8.mask2, Utf8.maskx.
  change 0x1F with (2 ^ 5 - 1). change 0x3F with (2 ^ 6 - 1).
  rewrite !land_mask by lia. rewrite Z.shiftl_mul_pow2 by lia.
  rewrite lor_shifted by (change (2 ^ 6) with 64; dlia).
  reflexivity.
Qed.

Lemma value3 (b0 b1 b2 : Z) :
  Z.lor (Z.lor (Z.shiftl (Z.land b0 Utf8.mask3) 12)
               (Z.shiftl (Z.land b1 Utf8.maskx) 6))
        (Z.land b2 Utf8.maskx)
  = (b0 mod 16) * 4096 + (b1 mod 64) * 64 + b2 mod 64.
Proof.
  unfold Utf8.mask3, Utf8.maskx.
  change 0x0F with (2 ^ 4 - 1). change 0x3F with (2 ^ 6 - 1).
  rewrite !land_mask by lia. rewrite !Z.shiftl_mul_pow2 by lia.
  rewrite (lor_shifted (b0 mod 2 ^ 4) (b1 mod 2 ^ 6 * 2 ^ 6) 12)
    by (change (2 ^ 6) with 64; change (2 ^ 12) with 4096; dlia).
  replace (b0 mod 2 ^ 4 * 2 ^ 12 + b1 mod 2 ^ 6 * 2 ^ 6)
    with ((b0 mod 2 ^ 4 * 64 + b1 mod 2 ^ 6) * 2 ^ 6)
    by (change (2 ^ 6) with 64; change (2 ^ 12) with 4096; lia).
  rewrite lor_shifted by (change (2 ^ 6) with 64; dlia).
  change (2 ^ 6) with 64. change (2 ^ 4) with 16. lia.
Qed.

Ltac conds :=
  repeat match goal with
         | H : _ && _ = true |- _ => apply andb_prop in H; destruct H
         | H : negb _ = true |- _ => apply negb_true_iff in H
         | H : (_ <? _) = true |- _ => apply Z.ltb_lt in H
         | H : (_ <=? _) = true |- _ => apply Z.leb_le in H
         | H : (_ <? _) = false |- _ => apply Z.ltb_ge in H
         | H : (_ <=? _) = false |- _ => apply Z.leb_gt in H
         | H : _ && _ = false |- _ => apply andb_false_iff in H; destruct H
         end.

Lemma validRune_runeError : validRune Utf8.runeError.
Proof. unfold validRune. cbv. intuition discriminate. Qed.

(** Every rune that [range] yields is a Unicode scalar value. *)
Lemma rangeRunes_valid (s : string) : Forall validRune (Utf8.rangeRunes s).
Proof.
  remember (String.length s) as n eqn:Hn.
  revert s Hn. induction n as [n IH] using lt_wf_ind. intros s Hn.
  assert (IH' : forall t, (String.length t < String.length s)%nat ->
                Forall validRune (Utf8.rangeRunes t)).
  { intros t Ht. apply (IH (String.length t)); [lia | reflexivity]. }
  clear IH Hn n.
  destruct s as [|a0 s1]; [constructor|].
  assert (Hbad : Forall validRune (Utf8.runeError :: Utf8.rangeRunes s1)).
  { constructor; [apply validRune_runeError | apply IH'; simpl; lia]. }
  pose proof (byteZ_range a0) as R0.
  cbn [Utf8.rangeRunes].
  destruct (byteZ a0 <? Utf8.runeSelf) eqn:E0.
  { constructor; [| apply IH'; simpl; lia].
    unfold validRune, Utf8.maxRune, Utf8.surrogateMin. lia. }
  destruct ((Utf8.t2 <=? byteZ a0) && (byteZ a0 <? Utf8.t3)) eqn:E2.
  { destruct s1 as [|a1 s2]; [exact Hbad|]. cbv beta iota.
    match goal with |- context [if ?c then _ else _] => destruct c eqn:E end;
      [| exact Hbad].
    constructor; [| apply IH'; simpl; lia].
    conds. rewrite value2 in *.
    unfold validRune, Utf8.maxRune, Utf8.surrogateMin, Utf8.surrogateMax,
      Utf8.rune1Max in *. dlia. }
  destruct ((Utf8.t3 <=? byteZ a0) && (byteZ a0 <? Utf8.t4)) eqn:E3.
  { destruct s1 as [|a1 [|a2 s3]]; [exact Hbad | exact Hbad |]. cbv beta iota.
    match goal with |- context [if ?c then _ else _] => destruct c eqn:E end;
      [| exact Hbad].
    constructor; [| apply IH'; simpl; lia].
    apply andb_prop in E. destruct E as [E Es].
    apply andb_prop in E. destruct E as [_ E]. apply Z.ltb_lt in E.
    apply negb_true_iff in Es. rewrite value3 in *.
    unfold validRune, Utf8.maxRune, Utf8.surrogateMin, Utf8.surrogateMax,
      Utf8.rune2Max in *.
    split; [dlia|]. intros [Ha Hb].
    apply Z.leb_le in Ha, Hb. rewrite Ha, Hb in Es. discriminate Es. }
  destruct ((Utf8.t4 <=? byteZ a0) && (byteZ a0 <? Utf8.t5)) eqn:E4;
    [| exact Hbad].
  destruct s1 as [|a1 [|a2 [|a3 s4]]]; try exact Hbad. cbv beta iota.
  match goal with |- context [if ?c then _ else _] => destruct c eqn:E end;
    [| exact Hbad].
  constructor; [| apply IH'; simpl; lia].
  apply andb_prop in E. destruct E as [E Emax].
  apply andb_prop in E. destruct E as [_ E].
  apply Z.ltb_lt in E. apply Z.leb_le in Emax.
  unfold validRune, Utf8.maxRune, Utf8.surrogateMin, Utf8.surrogateMax,
    Utf8.rune3Max in *. lia.
Qed.

(** Converting runes to a string and ranging over the string gives the
    runes back. *)
Lemma rangeRunes_stringOfRunes (rs : list rune) :
  Forall validRune rs -> Utf8.rangeRunes (Utf8.stringOfRunes rs) = rs.
Proof.
  induction 1 as [|r rs Hr _ IH]; [reflexivity|].
  cbn [Utf8.stringOfRunes]. rewrite decode_encode by exact Hr.
  rewrite IH. reflexivity.
Qed.

Lemma stringOfRunes_wellFormed (rs : list rune) :
  Forall validRune rs -> wellFormed (Utf8.stringOfRunes rs).
Proof.
  intros H. unfold wellFormed. rewrite rangeRunes_stringOfRunes by exact H.
  reflexivity.
Qed.

(** ** The loop *)

Lemma scan_app (m : scanner) (xs ys : list rune) :
  scan m (xs ++ ys) = scan (scan m xs) ys.
Proof. apply fold_left_app. Qed.

Lemma scan_snoc (m : scanner) (xs : list rune) (c : rune) :
  scan m (xs ++ [c]) = step (scan m xs) c.
Proof. rewrite scan_app. reflexivity. Qed.

(** [Tokenize] is the scan of the input's own runes followed by one more
    iteration on the synthetic space. *)
Lemma Tokenize_last_space (s : string) :
  Tokenize s = tokens (step (scan start (Utf8.rangeRunes s)) r_space).
Proof.
  unfold Tokenize. rewrite rangeRunes_app_space, scan_snoc. reflexivity.
Qed.

(** Case analysis on the tests [char == k] of the switches. *)
Ltac rune_cases c :=
  repeat match goal with
         | |- context [c =? ?k] =>
           destruct (Z.eqb_spec c k) as [->|?]
         end.

Lemma step_follows_table (m : scanner) (c : rune) : tableStep m c (step m c).
Proof.
  destruct m as [ts tk st sv].
  destruct st; cbv [step]; cbn [state tokens token lastState];
    rune_cases c; try (constructor; (assumption || (repeat split; assumption))).
Qed.

Lemma table_deterministic (m : scanner) (c : rune) (m' : scanner) :
  tableStep m c m' -> m' = step m c.
Proof.
  intros H. destruct H; cbv [step]; cbn [state tokens token lastState];
    try reflexivity;
    repeat match goal with
           | H : other _ |- _ => destruct H as (? & ? & ?)
           end;
    rune_cases c; (reflexivity || contradiction).
Qed.

Lemma scan_follows_table (rs : list rune) (m : scanner) :
  tableRun m rs (scan m rs).
Proof.
  revert m. induction rs as [|c rs IH]; intros m.
  - constructor.
  - econstructor; [apply step_follows_table | apply IH].
Qed.

(** ** What is known about [lastState] *)

Lemma savedOk_start : savedOk start.
Proof. split; [left; reflexivity | discriminate]. Qed.

Lemma savedOk_step (m : scanner) (c : rune) : savedOk m -> savedOk (step m c).
Proof.
  destruct m as [ts tk st sv]. unfold savedOk. cbn [state lastState].
  intros [Hsv Hbs].
  destruct st; cbv [step]; cbn [state tokens token lastState];
    rune_cases c; cbn [state lastState];
    try (split; [assumption | discriminate]);
    try (split; [auto | discriminate]);
    try (specialize (Hbs eq_refl);
         destruct Hsv as [->| [->| ->]];
         (contradiction || (split; [auto | discriminate]))).
Qed.

Lemma savedOk_scan (rs : list rune) (m : scanner) :
  savedOk m -> savedOk (scan m rs).
Proof.
  revert m. induction rs as [|c rs IH]; intros m Hm; [exact Hm|].
  apply IH, savedOk_step, Hm.
Qed.

(** After a space the scanner is between tokens or inside a quoted span;
    no word is in progress. *)
Lemma after_space (m : scanner) :
  savedOk m ->
  state (step m r_space) = stateWhitespace
  \/ state (step m r_space) = stateString
  \/ state (step m r_space) = stateLiteral.
Proof.
  destruct m as [ts tk st sv]. intros [Hsv Hbs]. cbn [state lastState] in *.
  destruct st; cbn; auto.
Qed.

(** In those three states a space ends no token. *)
Lemma space_no_flush (m : scanner) :
  state m = stateWhitespace \/ state m = stateString \/ state m = stateLiteral ->
  tokens (step m r_space) = tokens m.
Proof.
  destruct m as [ts tk st sv]. cbn [state].
  intros [->| [->| ->]]; reflexivity.
Qed.

(** ** Words *)

(** From the whitespace or the word state, a non-empty run of characters that
    are neither a space nor a quote is collected into the pending buffer. *)
Lemma scan_word (rs : list rune) (ts : list Token) (tk : list rune)
      (st sv : stateT) :
  st = stateWhitespace \/ st = stateWord ->
  rs <> [] ->
  (forall r, In r rs -> other r) ->
  scan (mkScanner ts tk st sv) rs = mkScanner ts (tk ++ rs) stateWord sv.
Proof.
  revert tk st. induction rs as [|c rs IH]; intros tk st Hst Hne Hall;
    [contradiction|].
  assert (Hc : other c) by (apply Hall; left; reflexivity).
  destruct Hc as (Hd & Hs & Hsp).
  assert (E : step (mkScanner ts tk st sv) c
              = mkScanner ts (tk ++ [c]) stateWord sv).
  { destruct Hst as [->| ->]; cbv [step]; cbn [state tokens token lastState];
      rune_cases c; (contradiction || reflexivity). }
  cbn [scan fold_left]. fold (scan (step (mkScanner ts tk st sv) c) rs).
  rewrite E. destruct rs as [|c' rs'].
  - reflexivity.
  - rewrite IH; [| right; reflexivity | discriminate
                 | intros r Hr; apply Hall; right; exact Hr].
    rewrite <- app_assoc. reflexivity.
Qed.

(** A run of spaces leaves the whitespace state as it is. *)
Lemma scan_spaces (rs : list rune) (ts : list Token) (tk : list rune)
      (sv : stateT) :
  (forall r, In r rs -> r = r_space) ->
  scan (mkScanner ts tk stateWhitespace sv) rs
  = mkScanner ts tk stateWhitespace sv.
Proof.
  induction rs as [|c rs IH]; intros Hall; [reflexivity|].
  rewrite (Hall c (or_introl eq_refl)) in *.
  cbn [scan fold_left]. change (step _ r_space) with
    (mkScanner ts tk stateWhitespace sv).
  apply IH. intros r Hr. apply Hall. right. exact Hr.
Qed.

(** ** The tagged scanner *)

Lemma forget_tstep (m : tscanner) (c : rune) :
  forget (tstep m c) = step (forget m) c.
Proof.
  destruct m as [ts tk st sv].
  destruct st; cbv [tstep step forget];
    cbn [tstate ttokens ttoken tlastState state tokens token lastState];
    rune_cases c;
    cbn [tstate ttokens ttoken tlastState state tokens token lastState];
    rewrite ?map_app; reflexivity.
Qed.

Lemma forget_tscan (rs : list rune) (m : tscanner) :
  forget (tscan m rs) = scan (forget m) rs.
Proof.
  revert m. induction rs as [|c rs IH]; intros m; [reflexivity|].
  cbn [tscan scan fold_left]. fold (tscan (tstep m c) rs).
  fold (scan (step (forget m) c) rs). rewrite IH, forget_tstep. reflexivity.
Qed.

Lemma forget_TokenizeTraced (s : string) :
  map forgetToken (TokenizeTraced s) = Tokenize s.
Proof.
  unfold TokenizeTraced, Tokenize.
  change start with (forget tstart). rewrite <- forget_tscan. reflexivity.
Qed.

Lemma tracedOk_start : tracedOk tstart.
Proof. split; [constructor | reflexivity]. Qed.

Lemma in_snoc {A : Type} (x y : A) (l : list A) :
  In x (l ++ [y]) -> In x l \/ x = y.
Proof.
  intros H. apply in_app_or in H. destruct H as [H| [H| []]]; auto.
Qed.

Ltac cells_tac :=
  let x := fresh "x" in
  let Hx := fresh "Hx" in
  intros x Hx;
  repeat match goal with
         | H : In _ (_ ++ [_]) |- _ =>
           apply in_snoc in H; destruct H as [H|H]
         | H : In _ [] |- _ => destruct H
         | H : (_, Copied) = (_, Decoded) |- _ => discriminate H
         | H : (_, Copied) = (_, Copied) |- _ => injection H as ->
         | H : forall c, In (c, Copied) ?l -> _, H' : In (_, Copied) ?l |- _ =>
           apply H in H'
         end;
  try tauto; try (split; assumption); try assumption.

Lemma tracedOk_tstep (m : tscanner) (c : rune) :
  tracedOk m -> tracedOk (tstep m c).
Proof.
  destruct m as [ts tk st sv]. unfold tracedOk.
  cbn [tstate ttokens ttoken tlastState]. intros [Hts Htk].
  destruct st; cbn [cellsOk] in Htk;
    [ subst tk | | | | destruct Htk as [[-> | ->] Htk]; cbn [cellsOk] in Htk ];
    cbv [tstep]; cbn [tstate ttokens ttoken tlastState];
    rune_cases c; cbn [tstate ttokens ttoken tlastState cellsOk];
    (split;
     [ first
         [ assumption
         | apply Forall_app; split; [assumption|];
           constructor; [| constructor];
           unfold tokenOk; cbn [tCells tType ownDelimiter]; cells_tac ]
     | first
         [ reflexivity
         | split; [auto | cbn [cellsOk]; assumption]
         | cells_tac ] ]).
Qed.

Lemma tracedOk_tscan (rs : list rune) (m : tscanner) :
  tracedOk m -> tracedOk (tscan m rs).
Proof.
  revert m. induction rs as [|c rs IH]; intros m Hm; [exact Hm|].
  apply IH, tracedOk_tstep, Hm.
Qed.

(** ** The values of the tokens *)

Lemma valuesOk_start : valuesOk start.
Proof. split; constructor. Qed.

Lemma validRune_small (r : rune) : 0 <= r < 128 -> validRune r.
Proof.
  unfold validRune, Utf8.maxRune, Utf8.surrogateMin, Utf8.surrogateMax. lia.
Qed.

Lemma valuesOk_step (m : scanner) (c : rune) :
  validRune c -> valuesOk m -> valuesOk (step m c).
Proof.
  destruct m as [ts tk st sv]. unfold valuesOk.
  cbn [tokens token]. intros Hc [Htk Hts].
  assert (Hpush : forall ty,
             Forall (fun t => wellFormed (Value t))
                    (ts ++ [mkToken ty (Utf8.stringOfRunes tk)])).
  { intros ty. apply Forall_app. split; [exact Hts|].
    constructor; [| constructor]. apply stringOfRunes_wellFormed, Htk. }
  assert (Happ : forall x, validRune x -> Forall validRune (tk ++ [x])).
  { intros x Hx. apply Forall_app. split; [exact Htk|].
    constructor; [exact Hx | constructor]. }
  destruct st; cbv [step]; cbn [state tokens token lastState];
    rune_cases c; cbn [tokens token];
    (split;
     [ first [ exact Htk | constructor | apply Happ; try exact Hc;
               apply validRune_small; cbv; intuition discriminate ]
     | first [ exact Hts | apply Hpush ] ]).
Qed.

Lemma valuesOk_scan (rs : list rune) (m : scanner) :
  Forall validRune rs -> valuesOk m -> valuesOk (scan m rs).
Proof.
  revert m. induction rs as [|c rs IH]; intros m Hrs Hm; [exact Hm|].
  inversion Hrs as [|? ? Hc Hrs']; subst.
  apply IH; [exact Hrs' | apply valuesOk_step; assumption].
Qed.

(** Every value that [Tokenize] returns is well-formed UTF-8. *)
Lemma Tokenize_wellFormed (s : string) (t : Token) :
  In t (Tokenize s) -> wellFormed (Value t).
Proof.
  intros Ht.
  assert (H : valuesOk (scan start (Utf8.rangeRunes (s ++ " ")%string)))
    by (apply valuesOk_scan; [apply rangeRunes_valid | apply valuesOk_start]).
  destruct H as [_ H]. rewrite Forall_forall in H. exact (H t Ht).
Qed.

(** ** Shapes of inputs *)

Lemma rangeRunes_nonempty (v : string) :
  v <> EmptyString -> Utf8.rangeRunes v <> [].
Proof.
  destruct v as [|a0 s1]; [contradiction|]. intros _.
  cbn [Utf8.rangeRunes].
  destruct s1 as [|a1 [|a2 [|a3 s4]]]; split_ifs; discriminate.
Qed.

(** A non-empty input without spaces and quotes is one word. *)
Lemma Tokenize_word (v : string) :
  v <> EmptyString ->
  (forall r, In r (Utf8.rangeRunes v) -> other r) ->
  Tokenize v
  = [mkToken TokenRegular (Utf8.stringOfRunes (Utf8.rangeRunes v))].
Proof.
  intros Hne Hall. rewrite Tokenize_last_space. unfold start.
  rewrite scan_word;
    [reflexivity | left; reflexivity | apply rangeRunes_nonempty, Hne | exact Hall].
Qed.

(** ** The examples of the specification *)

Example Tokenize_abc : Tokenize "abc" = [mkToken TokenRegular "abc"].
Proof. vm_compute. reflexivity. Qed.

Example Tokenize_abc_def_ghi :
  Tokenize ("abc " ++ dq ++ "def ghi" ++ dq)%string
  = [mkToken TokenRegular "abc"; mkToken TokenRegular "def ghi"].
Proof. vm_compute. reflexivity. Qed.

Example Tokenize_empty_quotes :
  Tokenize (dq ++ dq)%string = [mkToken TokenRegular ""].
Proof. vm_compute. reflexivity. Qed.

(** A multi-byte character (here U+00E9, bytes C3 A9) is one rune for the
    scanner and is encoded again in the value; a byte that is not UTF-8
    (here FF) comes out as U+FFFD (bytes EF BF BD). *)
Example Tokenize_two_byte_rune :
  let e := String (ascii_of_nat 195) (String (ascii_of_nat 169) "") in
  Tokenize ("caf" ++ e)%string = [mkToken TokenRegular ("caf" ++ e)%string].
Proof. vm_compute. reflexivity. Qed.

Example Tokenize_invalid_byte :
  Tokenize (String (ascii_of_nat 255) "x")
  = [mkToken TokenRegular
       (String (ascii_of_nat 239)
          (String (ascii_of_nat 191) (String (ascii_of_nat 189) "x")))].
Proof. vm_compute. reflexivity. Qed.

(** * The claims *)

(** C1 (as amended).  For the input made of [ab], a double quote, [cd], a
    double quote and [ef], [Tokenize] returns two tokens, Regular [abcd] and
    Regular [ef].  A double quote met in the word state switches to the
    string state and leaves both the pending buffer and the finished tokens
    untouched, so that the quoted content joins the word (without the final
    [ef] the result is the single token [abcd]); the closing quote then ends
    that token, and [ef] is a word of its own. *)
Theorem quote_inside_word :
  (forall ts tk sv,
      step (mkScanner ts tk stateWord sv) r_dquote
      = mkScanner ts tk stateString sv)
  /\ Tokenize ("ab" ++ dq ++ "cd" ++ dq)%string = [mkToken TokenRegular "abcd"]
  /\ Tokenize ("ab" ++ dq ++ "cd" ++ dq ++ "ef")%string
     = [mkToken TokenRegular "abcd"; mkToken TokenRegular "ef"].
Proof.
  split; [reflexivity|]. split; vm_compute; reflexivity.
Qed.

(** C1 as stated fails: the result for that input is not the single token
    [abcdef]. *)
Lemma quote_inside_word_not_one_token :
  Tokenize ("ab" ++ dq ++ "cd" ++ dq ++ "ef")%string
  <> [mkToken TokenRegular "abcdef"].
Proof. vm_compute. discriminate. Qed.

(** C2.  When the scan of the input is inside a quoted span at the
    synthetic space (in the string, literal or backslash state before the
    space is consumed or, which comes to the same, after it), the iteration
    on the space ends no token: the space is appended to the pending buffer,
    the scanner stays in the string or literal state, and [Tokenize] returns
    the tokens finished before, without the pending one.  In particular, a
    double quote followed by [unterminated] gives no token at all. *)
Theorem unterminated_token_dropped :
  (forall s : string,
      let m := scan start (Utf8.rangeRunes s) in
      let m' := step m r_space in
      insideQuote (state m) \/ insideQuote (state m') ->
      Tokenize s = tokens m
      /\ tokens m' = tokens m
      /\ token m' = token m ++ [r_space]
      /\ insideQuote (state m)
      /\ (state m' = stateString \/ state m' = stateLiteral))
  /\ Tokenize (dq ++ "unterminated")%string = [].
Proof.
  split; [| vm_compute; reflexivity].
  intros s m m' Hst. unfold Tokenize.
  rewrite rangeRunes_app_space, scan_snoc. fold m. fold m'.
  assert (Hok : savedOk m) by (apply savedOk_scan, savedOk_start).
  subst m'. destruct m as [ts tk st sv]. destruct Hok as [Hsv Hbs].
  unfold insideQuote in *. cbn [state lastState] in *.
  destruct st; cbn in Hst |- *.
  - destruct Hst as [[H| [H| H]]| [H| [H| H]]]; discriminate H.
  - destruct Hst as [[H| [H| H]]| [H| [H| H]]]; discriminate H.
  - repeat split; auto.
  - repeat split; auto.
  - specialize (Hbs eq_refl).
    destruct Hsv as [->| [->| ->]]; [contradiction | |]; repeat split; auto.
Qed.

Lemma unterminated_token_dropped_witness :
  let s := (dq ++ "unterminated")%string in
  let m := scan start (Utf8.rangeRunes s) in
  (insideQuote (state m) \/ insideQuote (state (step m r_space)))
  /\ Tokenize s = tokens m
  /\ tokens m = [].
Proof.
  intros s m.
  assert (H : insideQuote (state m) \/ insideQuote (state (step m r_space)))
    by (left; left; vm_compute; reflexivity).
  split; [exact H|]. split; [| vm_compute; reflexivity].
  exact (proj1 (proj1 unterminated_token_dropped s H)).
Defined.

(** C3.  [Tokenize] returns a token sequence for every input string.  The
    transition table has exactly one applicable row for every state and
    every character, so a run of the table never gets stuck and has no error
    case; for every input, the empty one included, the run over the runes of
    the input and the synthetic space exists, and its finished tokens are
    what [Tokenize] returns. *)
Theorem Tokenize_total :
  (forall m c, exists! m', tableStep m c m')
  /\ (forall s : string,
        exists m,
          tableRun start (Utf8.rangeRunes (s ++ " ")%string) m
          /\ Tokenize s = tokens m)
  /\ Tokenize "" = [].
Proof.
  split; [| split].
  - intros m c. exists (step m c). split.
    + apply step_follows_table.
    + intros m' H. symmetry. apply table_deterministic, H.
  - intros s. exists (scan start (Utf8.rangeRunes (s ++ " ")%string)).
    split; [apply scan_follows_table | reflexivity].
  - reflexivity.
Qed.

(** C4.  The closing quote of a quoted span ends the token and puts the
    scanner in the whitespace state, before the next character is looked at;
    the input made of a double quote, [abc], a double quote and [def] gives
    the two tokens Regular [abc] and Regular [def]. *)
Theorem closing_quote_ends_token :
  (forall ts tk sv,
      step (mkScanner ts tk stateString sv) r_dquote
      = mkScanner (ts ++ [mkToken TokenRegular (Utf8.stringOfRunes tk)]) []
                  stateWhitespace sv)
  /\ (forall ts tk sv,
         step (mkScanner ts tk stateLiteral sv) r_squote
         = mkScanner (ts ++ [mkToken TokenLiteral (Utf8.stringOfRunes tk)]) []
                     stateWhitespace sv)
  /\ Tokenize (dq ++ "abc" ++ dq ++ "def")%string
     = [mkToken TokenRegular "abc"; mkToken TokenRegular "def"].
Proof.
  split; [reflexivity|]. split; [reflexivity|]. vm_compute. reflexivity.
Qed.

(** C5.  A backslash inside a double-quoted or a single-quoted span and the
    character after it append the same decoded character to the pending
    buffer, finish no token and leave the scanner in the quoted state it was
    in.  The input made of a single quote, [raw], a backslash, [ntext] and a
    single quote gives one Literal token whose value has a newline between
    [raw] and [text]. *)
Theorem escapes_alike_in_both_quotes :
  (forall ts tk sv c,
      scan (mkScanner ts tk stateString sv) [r_backslash; c]
      = mkScanner ts (tk ++ [decodedEscape c]) stateString stateString)
  /\ (forall ts tk sv c,
         scan (mkScanner ts tk stateLiteral sv) [r_backslash; c]
         = mkScanner ts (tk ++ [decodedEscape c]) stateLiteral stateLiteral)
  /\ Tokenize (sq ++ "raw" ++ bs ++ "ntext" ++ sq)%string
     = [mkToken TokenLiteral ("raw" ++ nl ++ "text")%string].
Proof.
  split; [| split].
  - intros ts tk sv c. cbn [scan fold_left].
    change (step (mkScanner ts tk stateString sv) r_backslash)
      with (mkScanner ts tk stateBackslash stateString).
    cbv [step decodedEscape]; cbn [state tokens token lastState].
    rune_cases c; reflexivity.
  - intros ts tk sv c. cbn [scan fold_left].
    change (step (mkScanner ts tk stateLiteral sv) r_backslash)
      with (mkScanner ts tk stateBackslash stateLiteral).
    cbv [step decodedEscape]; cbn [state tokens token lastState].
    rune_cases c; reflexivity.
  - vm_compute. reflexivity.
Qed.

(** C6.  In every token that [Tokenize] returns, each occurrence of the
    delimiter of the token's own quoting context (a double quote in a
    Regular token, a single quote in a Literal token) was appended by the
    backslash state, never copied from the input by one of the text states.
    The tagged tokens are the returned ones: forgetting the tags gives
    [Tokenize s]. *)
Theorem delimiter_only_by_escape (s : string) (t : tracedToken) (c : rune)
        (o : origin) :
  In t (TokenizeTraced s) ->
  In (c, o) (tCells t) ->
  c = ownDelimiter (tType t) ->
  o = Decoded /\ map forgetToken (TokenizeTraced s) = Tokenize s.
Proof.
  intros Ht Hc Hd. split; [| apply forget_TokenizeTraced].
  assert (Hok : tracedOk (tscan tstart (Utf8.rangeRunes (s ++ " ")%string)))
    by (apply tracedOk_tscan, tracedOk_start).
  destruct Hok as [Hts _].
  rewrite Forall_forall in Hts. specialize (Hts t Ht).
  destruct o; [| reflexivity].
  exfalso. exact (Hts c Hc Hd).
Qed.

Lemma delimiter_only_by_escape_witness :
  let s := (sq ++ "a" ++ bs ++ sq ++ "b" ++ sq)%string in
  let t := mkTraced TokenLiteral
                    [(97, Copied); (r_squote, Decoded); (98, Copied)] in
  In t (TokenizeTraced s)
  /\ In (r_squote, Decoded) (tCells t)
  /\ Decoded = Decoded
  /\ map forgetToken (TokenizeTraced s) = Tokenize s.
Proof.
  intros s t.
  assert (Ht : In t (TokenizeTraced s)) by (left; vm_compute; reflexivity).
  assert (Hc : In (r_squote, Decoded) (tCells t))
    by (right; left; reflexivity).
  split; [exact Ht|]. split; [exact Hc|].
  exact (delimiter_only_by_escape s t r_squote Decoded Ht Hc eq_refl).
Defined.

(** C7 (as amended).  Tokenizing the value of a token again gives that
    value back as one Regular token when the value is non-empty and holds no
    space, besides holding no quote character and no backslash. *)
Theorem retokenize_plain_word (s : string) (t : Token) :
  In t (Tokenize s) ->
  Value t <> EmptyString ->
  (forall r, In r (Utf8.rangeRunes (Value t)) ->
             plain r = true /\ r <> r_space) ->
  Tokenize (Value t) = [mkToken TokenRegular (Value t)].
Proof.
  intros Ht Hne Hall.
  rewrite Tokenize_word; [| exact Hne |].
  - rewrite (Tokenize_wellFormed s t Ht). reflexivity.
  - intros r Hr. destruct (Hall r Hr) as [Hp Hsp]. unfold plain in Hp.
    apply andb_prop in Hp. destruct Hp as [Hp _].
    apply andb_prop in Hp. destruct Hp as [Hd Hs].
    apply negb_true_iff in Hd, Hs. apply Z.eqb_neq in Hd, Hs.
    repeat split; assumption.
Qed.

Lemma retokenize_plain_word_witness :
  let s := ("abc " ++ dq ++ "def ghi" ++ dq)%string in
  let t := mkToken TokenRegular "abc" in
  In t (Tokenize s)
  /\ Value t <> EmptyString
  /\ (forall r, In r (Utf8.rangeRunes (Value t)) ->
                plain r = true /\ r <> r_space)
  /\ Tokenize (Value t) = [mkToken TokenRegular (Value t)].
Proof.
  intros s t.
  assert (Ht : In t (Tokenize s)) by (left; vm_compute; reflexivity).
  assert (Hne : Value t <> EmptyString) by discriminate.
  assert (Hall : forall r, In r (Utf8.rangeRunes (Value t)) ->
                           plain r = true /\ r <> r_space).
  { intros r Hr. cbn in Hr.
    destruct Hr as [<-| [<-| [<-| []]]]; split; (reflexivity || discriminate). }
  split; [exact Ht|]. split; [exact Hne|]. split; [exact Hall|].
  exact (retokenize_plain_word s t Ht Hne Hall).
Defined.

(** C7 as stated fails: [def ghi] is a decoded value (of the second token of
    [abc], a space and [def ghi] in double quotes) without quote characters
    and backslashes, and tokenizing it does not give one token. *)
Lemma retokenize_splits_at_space :
  In (mkToken TokenRegular "def ghi")
     (Tokenize ("abc " ++ dq ++ "def ghi" ++ dq)%string)
  /\ forallb plain (Utf8.rangeRunes "def ghi") = true
  /\ ~ (exists t, Tokenize "def ghi" = [t] /\ Value t = "def ghi"%string).
Proof.
  split; [right; left; vm_compute; reflexivity|].
  split; [vm_compute; reflexivity|].
  intros [t [H _]]. vm_compute in H. discriminate H.
Qed.

(** X18.  An input that is empty or made of space characters (U+0020)
    only gives no token. *)
Theorem only_spaces_no_tokens (s : string) :
  (forall r, In r (Utf8.rangeRunes s) -> r = r_space) ->
  Tokenize s = [].
Proof.
  intros Hall. rewrite Tokenize_last_space. unfold start.
  rewrite scan_spaces by exact Hall. reflexivity.
Qed.

Lemma only_spaces_no_tokens_witness :
  (forall r, In r (Utf8.rangeRunes "   ") -> r = r_space)
  /\ Tokenize "   " = [].
Proof.
  assert (Hall : forall r, In r (Utf8.rangeRunes "   ") -> r = r_space).
  { intros r Hr. cbn in Hr.
    destruct Hr as [<-| [<-| [<-| []]]]; reflexivity. }
  split; [exact Hall|].
  exact (only_spaces_no_tokens "   " Hall).
Defined.

(** C8.  The code at a whitespace character that is not the space.  The
    doc comment of [Tokenize] gives whitespace as the input on which the
    whitespace state stays where it is and the word state ends a token, and
    the claim says that an input of whitespace characters gives no token;
    the two switches test for the space only.  A tab is a whitespace
    character, and the input made of one tab gives a token, the word made
    of that tab. *)
Lemma tab_makes_a_token :
  forallb isSpace (Utf8.rangeRunes tab) = true
  /\ Tokenize tab = [mkToken TokenRegular tab]
  /\ Tokenize tab <> [].
Proof.
  split; [vm_compute; reflexivity|].
  split; [vm_compute; reflexivity|].
  vm_compute. discriminate.
Qed.

(** C9.  One more space at the end of the input changes nothing:
    [Tokenize] of [s] followed by a space is [Tokenize s]. *)
Theorem trailing_space_irrelevant (s : string) :
  Tokenize (s ++ " ")%string = Tokenize s.
Proof.
  rewrite (Tokenize_last_space (s ++ " ")), rangeRunes_app_space, scan_snoc.
  rewrite (Tokenize_last_space s).
  apply space_no_flush, after_space, savedOk_scan, savedOk_start.
Qed.

(** C10.  A quote character after a backslash does not close the span and
    is kept in the value.  In the string state, a backslash and a double
    quote finish no token, append the double quote to the pending buffer
    and leave the scanner in the string state; the double quote that comes
    next then ends a token that holds the escaped one.  The same goes for
    the literal state and the single quote.  So [a], backslash, double
    quote, [b] inside double quotes is the one Regular token made of [a], a
    double quote and [b]; [a], backslash, single quote, [b] inside single
    quotes is the one Literal token made of [a], a single quote and [b]. *)
Theorem escaped_delimiter_kept :
  (forall ts tk sv,
      scan (mkScanner ts tk stateString sv) [r_backslash; r_dquote]
      = mkScanner ts (tk ++ [r_dquote]) stateString stateString)
  /\ (forall ts tk sv,
         scan (mkScanner ts tk stateLiteral sv) [r_backslash; r_squote]
         = mkScanner ts (tk ++ [r_squote]) stateLiteral stateLiteral)
  /\ (forall ts tk sv,
         scan (mkScanner ts tk stateString sv)
              [r_backslash; r_dquote; r_dquote]
         = mkScanner
             (ts ++ [mkToken TokenRegular
                             (Utf8.stringOfRunes (tk ++ [r_dquote]))])
             [] stateWhitespace stateString)
  /\ (forall ts tk sv,
         scan (mkScanner ts tk stateLiteral sv)
              [r_backslash; r_squote; r_squote]
         = mkScanner
             (ts ++ [mkToken TokenLiteral
                             (Utf8.stringOfRunes (tk ++ [r_squote]))])
             [] stateWhitespace stateLiteral)
  /\ Tokenize (dq ++ "a" ++ bs ++ dq ++ "b" ++ dq)%string
     = [mkToken TokenRegular ("a" ++ dq ++ "b")%string]
  /\ Tokenize (sq ++ "a" ++ bs ++ sq ++ "b" ++ sq)%string
     = [mkToken TokenLiteral ("a" ++ sq ++ "b")%string].
Proof.
  split; [intros; reflexivity|].
  split; [intros; reflexivity|].
  split; [intros; reflexivity|].
  split; [intros; reflexivity|].
  split; vm_compute; reflexivity.
Qed.

(** * Further properties of the code *)

(** ** More on the decoding done by [range] *)

(** An ASCII byte is decoded on its own wherever it stands: it is never
    swallowed by a multi-byte sequence before it, and decoding starts afresh
    after it. *)
Lemma rangeRunes_app_ascii (a : ascii) (s t : string) :
  byteZ a < 128 ->
  Utf8.rangeRunes (s ++ String a t)%string
  = Utf8.rangeRunes s ++ byteZ a :: Utf8.rangeRunes t.
Proof.
  intros Ha.
  assert (Hc : Utf8.cont (byteZ a) = false).
  { unfold Utf8.cont, Utf8.locb. apply andb_false_iff. left.
    apply Z.leb_gt. exact Ha. }
  remember (String.length s) as n eqn:Hn.
  revert s Hn. induction n as [n IH] using lt_wf_ind. intros s Hn.
  assert (IH' : forall u, (String.length u < String.length s)%nat ->
                Utf8.rangeRunes (u ++ String a t)%string
                = Utf8.rangeRunes u ++ byteZ a :: Utf8.rangeRunes t).
  { intros u Hu. apply (IH (String.length u)); [lia | reflexivity]. }
  clear IH Hn n.
  destruct s as [|a0 s1]; [apply decode1, Ha|].
  pose proof (IH' s1 ltac:(simpl; lia)) as H1.
  change (String a0 s1 ++ String a t)%string
    with (String a0 (s1 ++ String a t)).
  cbn [Utf8.rangeRunes]. rewrite H1.
  destruct (byteZ a0 <? Utf8.runeSelf); [reflexivity|].
  destruct s1 as [|a1 s2].
  { cbn [append]. rewrite Hc.
    destruct t as [|b1 [|b2 t']]; cbn [andb]; split_ifs; reflexivity. }
  change (String a1 s2 ++ String a t)%string
    with (String a1 (s2 ++ String a t)). cbv iota.
  rewrite (IH' s2) by (simpl; lia).
  destruct s2 as [|a2 s3].
  { cbn [append]. rewrite Hc. rewrite ?andb_false_r.
    destruct t as [|b1 t']; cbn [andb]; split_ifs; reflexivity. }
  change (String a2 s3 ++ String a t)%string
    with (String a2 (s3 ++ String a t)). cbv iota.
  rewrite (IH' s3) by (simpl; lia).
  destruct s3 as [|a3 s4].
  { cbn [append]. rewrite Hc. rewrite ?andb_false_r. cbn [andb].
    split_ifs; reflexivity. }
  change (String a3 s4 ++ String a t)%string
    with (String a3 (s4 ++ String a t)). cbv iota.
  rewrite (IH' s4) by (simpl; lia).
  split_ifs; reflexivity.
Qed.

(** There are at most as many runes as bytes. *)
Lemma rangeRunes_length (s : string) :
  (List.length (Utf8.rangeRunes s) <= String.length s)%nat.
Proof.
  remember (String.length s) as n eqn:Hn.
  revert s Hn. induction n as [n IH] using lt_wf_ind. intros s Hn.
  assert (IH' : forall u, (String.length u < String.length s)%nat ->
                (List.length (Utf8.rangeRunes u) <= String.length u)%nat).
  { intros u Hu. apply (IH (String.length u)); [lia | reflexivity]. }
  subst n. clear IH.
  destruct s as [|a0 s1]; [apply Nat.le_refl|].
  pose proof (IH' s1 ltac:(simpl; lia)) as H1.
  cbn [Utf8.rangeRunes].
  destruct s1 as [|a1 s2].
  { split_ifs; cbn; lia. }
  pose proof (IH' s2 ltac:(simpl; lia)) as H2.
  destruct s2 as [|a2 s3].
  { split_ifs; cbn [List.length String.length] in *; lia. }
  pose proof (IH' s3 ltac:(simpl; lia)) as H3.
  destruct s3 as [|a3 s4].
  { split_ifs; cbn [List.length String.length] in *; lia. }
  pose proof (IH' s4 ltac:(simpl; lia)) as H4.
  split_ifs; cbn [List.length String.length] in *; lia.
Qed.

(** ** More on the loop *)

Lemma idleOk_step (m : scanner) (c : rune) :
  savedOk m -> idleOk m -> idleOk (step m c).
Proof.
  destruct m as [ts tk st sv]. unfold savedOk, idleOk.
  cbn [state token lastState]. intros [Hsv Hbs] Hidle.
  destruct st; cbv [step]; cbn [state tokens token lastState];
    rune_cases c; cbn [state token];
    try (intros; reflexivity); try discriminate; try (exact Hidle);
    try (intros ->; exfalso; apply Hbs; reflexivity).
Qed.

Lemma idleOk_scan (rs : list rune) (m : scanner) :
  savedOk m -> idleOk m -> idleOk (scan m rs).
Proof.
  revert m. induction rs as [|c rs IH]; intros m Hs Hi; [exact Hi|].
  apply IH; [apply savedOk_step, Hs | apply idleOk_step; assumption].
Qed.

Lemma idleOk_start : idleOk start.
Proof. intros _. reflexivity. Qed.

(** A step only ever adds to the finished tokens. *)
Lemma step_keeps_tokens (m : scanner) (c : rune) :
  exists rest, tokens (step m c) = tokens m ++ rest.
Proof.
  destruct m as [ts tk st sv].
  destruct st; cbv [step]; cbn [state tokens token lastState];
    rune_cases c; cbn [tokens];
    first [ exists []; symmetry; apply app_nil_r
          | eexists; reflexivity ].
Qed.

Lemma scan_keeps_tokens (rs : list rune) (m : scanner) :
  exists rest, tokens (scan m rs) = tokens m ++ rest.
Proof.
  revert m. induction rs as [|c rs IH]; intros m.
  - exists []. symmetry. apply app_nil_r.
  - cbn [scan fold_left]. fold (scan (step m c) rs).
    destruct (IH (step m c)) as [r2 H2].
    destruct (step_keeps_tokens m c) as [r1 H1].
    exists (r1 ++ r2). rewrite H2, H1. symmetry. apply app_assoc.
Qed.

Lemma continues_step (ts : list Token) (m m' : scanner) (c : rune) :
  continues ts m m' -> continues ts (step m c) (step m' c).
Proof.
  destruct m as [ts1 tk1 st1 sv1]. destruct m' as [ts2 tk2 st2 sv2].
  unfold continues. cbn [state tokens token lastState].
  intros (-> & -> & -> & Hsv).
  destruct st2; cbv [step]; cbn [state tokens token lastState];
    rune_cases c; cbn [state tokens token lastState];
    try rewrite (Hsv eq_refl);
    repeat split; try discriminate; try reflexivity;
    try (symmetry; apply app_assoc);
    try (intros _; apply Hsv; reflexivity).
Qed.

Lemma continues_scan (rs : list rune) (ts : list Token) (m m' : scanner) :
  continues ts m m' -> continues ts (scan m rs) (scan m' rs).
Proof.
  revert m m'. induction rs as [|c rs IH]; intros m m' H; [exact H|].
  apply IH, continues_step, H.
Qed.

(** Each finished token has used up two runes at least: the one that began
    it and the one that ended it. *)
Lemma step_uses_runes (m : scanner) (c : rune) :
  (2 * List.length (tokens (step m c)) + begun (state (step m c))
   <= 2 * List.length (tokens m) + begun (state m) + 1)%nat.
Proof.
  destruct m as [ts tk st sv].
  destruct st; cbv [step]; cbn [state tokens token lastState];
    rune_cases c; cbn [state tokens begun];
    rewrite ?length_app; cbn [List.length]; try lia;
    destruct sv; cbn [begun]; lia.
Qed.

Lemma scan_uses_runes (rs : list rune) (m : scanner) :
  (2 * List.length (tokens (scan m rs)) + begun (state (scan m rs))
   <= 2 * List.length (tokens m) + begun (state m) + List.length rs)%nat.
Proof.
  revert m. induction rs as [|c rs IH]; intros m; [cbn; lia|].
  cbn [scan fold_left]. fold (scan (step m c) rs).
  pose proof (IH (step m c)) as H1. pose proof (step_uses_runes m c) as H2.
  cbn [List.length]. lia.
Qed.

(** ** Lines and their parts *)

Lemma rangeRunes_space_between (s t : string) :
  Utf8.rangeRunes (s ++ " " ++ t)%string
  = Utf8.rangeRunes s ++ r_space :: Utf8.rangeRunes t.
Proof.
  change (" " ++ t)%string with (String " " t).
  rewrite rangeRunes_app_ascii by (cbv; reflexivity). reflexivity.
Qed.

Lemma string_app_assoc (a b c : string) :
  ((a ++ b) ++ c)%string = (a ++ b ++ c)%string.
Proof.
  induction a as [|x a IH]; [reflexivity|]. cbn [append]. rewrite IH.
  reflexivity.
Qed.

(** A line with a space in it: the scan of the part before the space, the
    step on that space, the scan of the part after it and of the synthetic
    space. *)
Lemma Tokenize_space_between (s t : string) :
  Tokenize (s ++ " " ++ t)%string
  = tokens (scan (step (scan start (Utf8.rangeRunes s)) r_space)
                 (Utf8.rangeRunes (t ++ " ")%string)).
Proof.
  unfold Tokenize. rewrite string_app_assoc.
  change ((" " ++ t) ++ " ")%string with (" " ++ (t ++ " "))%string.
  rewrite rangeRunes_space_between, scan_app. reflexivity.
Qed.

(** X1.  The tokens of the part of a line before a space stay as they are,
    whatever follows the space: they are the first tokens of the whole
    line. *)
Theorem tokens_before_space_stable (s t : string) :
  exists rest, Tokenize (s ++ " " ++ t)%string = Tokenize s ++ rest.
Proof.
  rewrite Tokenize_space_between, (Tokenize_last_space s).
  apply scan_keeps_tokens.
Qed.

(** X2.  A space outside quotes separates: when the part of the line before
    a space does not end inside a quoted span, the tokens of the line are
    the tokens of that part followed by the tokens of the rest. *)
Theorem Tokenize_app_at_space (s t : string) :
  state (scan start (Utf8.rangeRunes s)) = stateWhitespace
  \/ state (scan start (Utf8.rangeRunes s)) = stateWord ->
  Tokenize (s ++ " " ++ t)%string = Tokenize s ++ Tokenize t.
Proof.
  intros Hst. rewrite Tokenize_space_between, (Tokenize_last_space s).
  set (m := scan start (Utf8.rangeRunes s)) in *.
  assert (Hsaved : savedOk (step m r_space))
    by (apply savedOk_step, savedOk_scan, savedOk_start).
  assert (Hidle : idleOk (step m r_space)).
  { apply idleOk_step; [apply savedOk_scan, savedOk_start|].
    apply idleOk_scan; [apply savedOk_start | apply idleOk_start]. }
  assert (Hws : state (step m r_space) = stateWhitespace).
  { destruct m as [ts tk st sv]. cbn [state] in Hst.
    destruct Hst as [-> | ->]; reflexivity. }
  assert (C : continues (tokens (step m r_space)) (step m r_space) start).
  { unfold continues. rewrite Hws. cbn [start tokens token state].
    repeat split; [symmetry; apply app_nil_r | apply Hidle, Hws
                   | discriminate]. }
  apply (continues_scan (Utf8.rangeRunes (t ++ " ")%string)) in C.
  destruct C as (C & _). exact C.
Qed.

Lemma Tokenize_app_at_space_witness :
  (state (scan start (Utf8.rangeRunes "ab")) = stateWhitespace
   \/ state (scan start (Utf8.rangeRunes "ab")) = stateWord)
  /\ Tokenize ("ab" ++ " " ++ sq ++ "c d" ++ sq)%string
     = Tokenize "ab" ++ Tokenize (sq ++ "c d" ++ sq)%string.
Proof.
  assert (H : state (scan start (Utf8.rangeRunes "ab")) = stateWhitespace
              \/ state (scan start (Utf8.rangeRunes "ab")) = stateWord)
    by (right; vm_compute; reflexivity).
  split; [exact H|].
  exact (Tokenize_app_at_space "ab" (sq ++ "c d" ++ sq)%string H).
Defined.

(** X3.  A line of [n] bytes has at most [(n + 1) / 2] tokens: every token
    takes a rune to begin and a rune to end, and the line has at most [n]
    runes before the synthetic space. *)
Theorem Tokenize_length_bound (s : string) :
  (2 * List.length (Tokenize s) <= String.length s + 1)%nat.
Proof.
  unfold Tokenize. rewrite rangeRunes_app_space.
  pose proof (scan_uses_runes (Utf8.rangeRunes s ++ [r_space]) start) as H.
  pose proof (rangeRunes_length s) as Hl.
  rewrite length_app in H. cbn [List.length start tokens state begun] in H.
  lia.
Qed.

(** X4.  A leading space changes nothing. *)
Theorem leading_space_irrelevant (s : string) :
  Tokenize (" " ++ s)%string = Tokenize s.
Proof.
  unfold Tokenize.
  change ((" " ++ s) ++ " ")%string with (String " " (s ++ " ")).
  rewrite decode1 by (cbv; reflexivity). reflexivity.
Qed.

(** X5.  Every value that [Tokenize] returns is well-formed UTF-8, also
    when the line is not: ranging over the value and converting the runes
    back gives the value. *)
Theorem values_are_utf8 (s : string) (t : Token) :
  In t (Tokenize s) ->
  Utf8.stringOfRunes (Utf8.rangeRunes (Value t)) = Value t.
Proof.
  intros Ht.
  assert (H : valuesOk (scan start (Utf8.rangeRunes (s ++ " ")%string)))
    by (apply valuesOk_scan; [apply rangeRunes_valid | apply valuesOk_start]).
  destruct H as [_ H]. rewrite Forall_forall in H. exact (H t Ht).
Qed.

Lemma values_are_utf8_witness :
  let s := String (ascii_of_nat 255) "x" in
  let t := mkToken TokenRegular
             (String (ascii_of_nat 239)
                (String (ascii_of_nat 191) (String (ascii_of_nat 189) "x"))) in
  In t (Tokenize s)
  /\ Utf8.stringOfRunes (Utf8.rangeRunes (Value t)) = Value t.
Proof.
  intros s t.
  assert (Ht : In t (Tokenize s)) by (left; vm_compute; reflexivity).
  split; [exact Ht|]. exact (values_are_utf8 s t Ht).
Defined.

(** X6.  [Tokenize] sees a line through its runes only: replacing the line
    by the conversion of its runes to a string, which replaces every byte
    that is not UTF-8 by U+FFFD, gives the same tokens. *)
Theorem Tokenize_of_runes (s : string) :
  Tokenize (Utf8.stringOfRunes (Utf8.rangeRunes s)) = Tokenize s.
Proof.
  unfold Tokenize. rewrite !rangeRunes_app_space.
  rewrite rangeRunes_stringOfRunes by apply rangeRunes_valid. reflexivity.
Qed.

(** ** Quoted spans *)

Lemma stringOfRunes_app (xs ys : list rune) :
  Utf8.stringOfRunes (xs ++ ys)
  = (Utf8.stringOfRunes xs ++ Utf8.stringOfRunes ys)%string.
Proof.
  induction xs as [|x xs IH]; [reflexivity|].
  cbn [app Utf8.stringOfRunes]. rewrite IH, string_app_assoc. reflexivity.
Qed.

Lemma encodeRune_nonempty (r : rune) : Utf8.encodeRune r <> EmptyString.
Proof. unfold Utf8.encodeRune. split_ifs; discriminate. Qed.

Lemma stringOfRunes_nonempty (rs : list rune) :
  rs <> [] -> Utf8.stringOfRunes rs <> EmptyString.
Proof.
  destruct rs as [|r rs]; [contradiction|]. intros _.
  cbn [Utf8.stringOfRunes]. pose proof (encodeRune_nonempty r) as H.
  destruct (Utf8.encodeRune r); [contradiction | discriminate].
Qed.


Lemma scan_cons (m : scanner) (c : rune) (rs : list rune) :
  scan m (c :: rs) = scan (step m c) rs.
Proof. reflexivity. Qed.






(** ** Lines without quotes *)

Lemma string_app_nil_r (s : string) : (s ++ "")%string = s.
Proof. induction s as [|a s IH]; [reflexivity|]. cbn. rewrite IH. reflexivity. Qed.

Lemma joinValues_app (xs ys : list Token) :
  joinValues (xs ++ ys) = (joinValues xs ++ joinValues ys)%string.
Proof.
  induction xs as [|x xs IH]; [reflexivity|].
  cbn [app joinValues]. rewrite IH, string_app_assoc. reflexivity.
Qed.

Lemma filter_noSpace_snoc (rs : list rune) (c : rune) :
  filter noSpace (rs ++ [c])
  = if c =? r_space then filter noSpace rs else filter noSpace rs ++ [c].
Proof.
  rewrite filter_app. cbn [filter]. unfold noSpace at 2.
  destruct (c =? r_space); cbn [negb]; [apply app_nil_r | reflexivity].
Qed.

Lemma wordsOk_start : wordsOk [] start.
Proof.
  unfold wordsOk. cbn. repeat split; auto.
Qed.

Lemma wordsOk_step (rs : list rune) (m : scanner) (c : rune) :
  validRune c -> c <> r_dquote -> c <> r_squote ->
  wordsOk rs m -> wordsOk (rs ++ [c]) (step m c).
Proof.
  intros Hv Hd Hs. destruct m as [ts tk st sv]. unfold wordsOk.
  cbn [state tokens token]. intros (Hst & Hsp & Hval & Hts & Hjoin).
  rewrite filter_noSpace_snoc.
  destruct Hst as [[-> ->] | [-> Hne]].
  - (* between words *)
    cbv [step]; cbn [state tokens token lastState].
    rune_cases c; try contradiction; cbn [state tokens token].
    + repeat split; auto.
    + split; [right; split; [reflexivity | discriminate]|].
      split; [intros [H|[]]; auto|].
      split; [constructor; [exact Hv | constructor]|].
      split; [exact Hts|].
      rewrite !stringOfRunes_app, <- Hjoin. cbn [app Utf8.stringOfRunes].
      rewrite !string_app_nil_r. reflexivity.
  - (* in a word *)
    cbv [step]; cbn [state tokens token lastState].
    rune_cases c; try contradiction; cbn [state tokens token].
    + split; [left; split; reflexivity|].
      split; [intros []|]. split; [constructor|].
      split.
      * apply Forall_app. split; [exact Hts|].
        constructor; [| constructor]. unfold wordToken. cbn [Type_ Value].
        split; [reflexivity|].
        split; [apply stringOfRunes_nonempty, Hne|].
        rewrite rangeRunes_stringOfRunes by exact Hval. exact Hsp.
      * rewrite joinValues_app. cbn [joinValues Value Utf8.stringOfRunes].
        rewrite !string_app_nil_r. exact Hjoin.
    + split; [right; split; [reflexivity|]|].
      { destruct tk; discriminate. }
      split.
      { intros H. apply in_app_or in H. destruct H as [H| [H| []]]; auto. }
      split.
      { apply Forall_app. split; [exact Hval|].
        constructor; [exact Hv | constructor]. }
      split; [exact Hts|].
      rewrite !stringOfRunes_app, <- Hjoin, string_app_assoc. reflexivity.
Qed.

Lemma wordsOk_scan (rs : list rune) :
  Forall validRune rs ->
  (forall r, In r rs -> r <> r_dquote /\ r <> r_squote) ->
  wordsOk rs (scan start rs).
Proof.
  induction rs as [|c rs IH] using rev_ind; intros Hv Hq.
  - apply wordsOk_start.
  - rewrite scan_snoc. apply Forall_app in Hv. destruct Hv as [Hv Hc].
    inversion Hc; subst.
    destruct (Hq c) as [Hd Hs]; [apply in_or_app; right; left; reflexivity|].
    apply wordsOk_step; auto.
    apply IH; [exact Hv|]. intros r Hr. apply Hq, in_or_app. left. exact Hr.
Qed.

Lemma wordsOk_Tokenize (s : string) :
  (forall r, In r (Utf8.rangeRunes s) -> r <> r_dquote /\ r <> r_squote) ->
  wordsOk (Utf8.rangeRunes s ++ [r_space])
          (scan start (Utf8.rangeRunes (s ++ " ")%string)).
Proof.
  intros Hq. rewrite rangeRunes_app_space. apply wordsOk_scan.
  - apply Forall_app. split; [apply rangeRunes_valid|].
    constructor; [apply validRune_small; cbv; intuition discriminate
                 | constructor].
  - intros r Hr. apply in_app_or in Hr.
    destruct Hr as [Hr| [<-| []]]; [apply Hq, Hr | split; discriminate].
Qed.

(** X9.  On a line without quote characters every token is a word: it is
    Regular, its value is not empty, and its value holds no space. *)
Theorem unquoted_tokens_are_words (s : string) (t : Token) :
  (forall r, In r (Utf8.rangeRunes s) -> r <> r_dquote /\ r <> r_squote) ->
  In t (Tokenize s) ->
  Type_ t = TokenRegular
  /\ Value t <> EmptyString
  /\ ~ In r_space (Utf8.rangeRunes (Value t)).
Proof.
  intros Hq Ht. destruct (wordsOk_Tokenize s Hq) as (_ & _ & _ & Hts & _).
  rewrite Forall_forall in Hts. exact (Hts t Ht).
Qed.

Lemma unquoted_tokens_are_words_witness :
  let s := (" a" ++ bs ++ "n  bc ")%string in
  let t := mkToken TokenRegular ("a" ++ bs ++ "n")%string in
  (forall r, In r (Utf8.rangeRunes s) -> r <> r_dquote /\ r <> r_squote)
  /\ In t (Tokenize s)
  /\ Type_ t = TokenRegular
  /\ Value t <> EmptyString
  /\ ~ In r_space (Utf8.rangeRunes (Value t)).
Proof.
  intros s t.
  assert (Hq : forall r, In r (Utf8.rangeRunes s) ->
                         r <> r_dquote /\ r <> r_squote).
  { intros r Hr. vm_compute in Hr.
    repeat (destruct Hr as [<-|Hr]; [split; discriminate|]). destruct Hr. }
  assert (Ht : In t (Tokenize s)) by (left; vm_compute; reflexivity).
  split; [exact Hq|]. split; [exact Ht|].
  exact (unquoted_tokens_are_words s t Hq Ht).
Defined.

(** X10.  On a line without quote characters nothing but the spaces is
    lost: the values of the tokens, one after the other, are the runes of
    the line without the spaces. *)
Theorem unquoted_values_are_the_line (s : string) :
  (forall r, In r (Utf8.rangeRunes s) -> r <> r_dquote /\ r <> r_squote) ->
  joinValues (Tokenize s)
  = Utf8.stringOfRunes (filter noSpace (Utf8.rangeRunes s)).
Proof.
  intros Hq.
  destruct (wordsOk_Tokenize s Hq) as (Hst & _ & _ & _ & Hjoin).
  rewrite filter_noSpace_snoc in Hjoin. cbn in Hjoin.
  assert (Hidle : token (scan start (Utf8.rangeRunes (s ++ " ")%string)) = []).
  { destruct Hst as [[_ H] | [H _]]; [exact H|].
    exfalso. rewrite rangeRunes_app_space, scan_snoc in H.
    destruct (after_space (scan start (Utf8.rangeRunes s)))
      as [E| [E| E]];
      [apply savedOk_scan, savedOk_start | | |];
      rewrite E in H; discriminate H. }
  rewrite Hidle in Hjoin. cbn [Utf8.stringOfRunes] in Hjoin.
  rewrite string_app_nil_r in Hjoin. exact Hjoin.
Qed.

Lemma unquoted_values_are_the_line_witness :
  let s := (" ab  c" ++ bs ++ " ")%string in
  (forall r, In r (Utf8.rangeRunes s) -> r <> r_dquote /\ r <> r_squote)
  /\ joinValues (Tokenize s) = ("abc" ++ bs)%string.
Proof.
  intros s.
  assert (Hq : forall r, In r (Utf8.rangeRunes s) ->
                         r <> r_dquote /\ r <> r_squote).
  { intros r Hr. vm_compute in Hr.
    repeat (destruct Hr as [<-|Hr]; [split; discriminate|]). destruct Hr. }
  split; [exact Hq|].
  rewrite (unquoted_values_are_the_line s Hq). vm_compute. reflexivity.
Defined.

(** ** Literal tokens need a single quote *)

Lemma noLiteral_step (m : scanner) (c : rune) :
  c <> r_squote -> noLiteral m -> noLiteral (step m c).
Proof.
  intros Hc. destruct m as [ts tk st sv]. unfold noLiteral.
  cbn [state tokens lastState]. intros (Hst & Hsv & Hts).
  destruct st; try contradiction;
    cbv [step]; cbn [state tokens token lastState];
    rune_cases c; try contradiction; cbn [state tokens lastState];
    (split; [first [discriminate | exact Hsv]|]);
    (split; [first [discriminate | exact Hsv]|]);
    first [ exact Hts
          | apply Forall_app; split; [exact Hts|];
            constructor; [reflexivity | constructor] ].
Qed.

Lemma noLiteral_scan (rs : list rune) (m : scanner) :
  (forall r, In r rs -> r <> r_squote) -> noLiteral m -> noLiteral (scan m rs).
Proof.
  revert m. induction rs as [|c rs IH]; intros m Hall Hm; [exact Hm|].
  rewrite scan_cons. apply IH.
  - intros r Hr. apply Hall. right. exact Hr.
  - apply noLiteral_step; [apply Hall; left; reflexivity | exact Hm].
Qed.

(** X11.  On a line without a single quote every token is Regular. *)
Theorem no_single_quote_all_regular (s : string) (t : Token) :
  (forall r, In r (Utf8.rangeRunes s) -> r <> r_squote) ->
  In t (Tokenize s) ->
  Type_ t = TokenRegular.
Proof.
  intros Hall Ht. unfold Tokenize in Ht. rewrite rangeRunes_app_space in Ht.
  assert (H : noLiteral (scan start (Utf8.rangeRunes s ++ [r_space]))).
  { apply noLiteral_scan.
    - intros r Hr. apply in_app_or in Hr.
      destruct Hr as [Hr| [<-| []]]; [apply Hall, Hr | discriminate].
    - unfold noLiteral. cbn. repeat split; (discriminate || constructor). }
  destruct H as (_ & _ & H). rewrite Forall_forall in H. exact (H t Ht).
Qed.

Lemma no_single_quote_all_regular_witness :
  let s := ("a " ++ dq ++ "b" ++ bs ++ "n" ++ dq)%string in
  let t := mkToken TokenRegular ("b" ++ nl)%string in
  (forall r, In r (Utf8.rangeRunes s) -> r <> r_squote)
  /\ In t (Tokenize s)
  /\ Type_ t = TokenRegular.
Proof.
  intros s t.
  assert (Hq : forall r, In r (Utf8.rangeRunes s) -> r <> r_squote).
  { intros r Hr. vm_compute in Hr.
    repeat (destruct Hr as [<-|Hr]; [discriminate|]). destruct Hr. }
  assert (Ht : In t (Tokenize s)) by (right; left; vm_compute; reflexivity).
  split; [exact Hq|]. split; [exact Ht|].
  exact (no_single_quote_all_regular s t Hq Ht).
Defined.

(** ** Where the runes of the values come from *)

Lemma runesWithin_step (Q : rune -> Prop) (m : scanner) (c : rune) :
  validRune c -> Q c ->
  (state m = stateBackslash -> Q (decodedEscape c)) ->
  runesWithin Q m -> runesWithin Q (step m c).
Proof.
  intros Hv Hq Hesc. destruct m as [ts tk st sv]. unfold runesWithin.
  cbn [state tokens token] in *. intros (Hval & Htk & Hts).
  assert (Hpush : forall ty,
             Forall (fun t => Forall Q (Utf8.rangeRunes (Value t)))
                    (ts ++ [mkToken ty (Utf8.stringOfRunes tk)])).
  { intros ty. apply Forall_app. split; [exact Hts|].
    constructor; [| constructor]. cbn [Value].
    rewrite rangeRunes_stringOfRunes by exact Hval. exact Htk. }
  assert (Happ : forall x, validRune x -> Q x ->
                           Forall validRune (tk ++ [x])
                           /\ Forall Q (tk ++ [x])).
  { intros x Hx HQ. split; apply Forall_app; (split; [assumption|]);
      constructor; (assumption || constructor). }
  destruct st; cbv [step]; cbn [state tokens token lastState];
    rune_cases c; cbn [tokens token];
    try (specialize (Hesc eq_refl); cbv [decodedEscape] in Hesc;
         cbn in Hesc);
    first
      [ split; [exact Hval|]; split; [exact Htk | exact Hts]
      | split; [constructor|]; split; [constructor | apply Hpush]
      | destruct (Happ c Hv Hq) as [H1 H2];
        split; [exact H1|]; split; [exact H2 | exact Hts]
      | match goal with
        | H : Q ?x |- context [tk ++ [?x]] =>
          destruct (Happ x ltac:(apply validRune_small; cbv;
                                 intuition discriminate) H) as [H1 H2];
          split; [exact H1|]; split; [exact H2 | exact Hts]
        end ].
Qed.

Lemma runesWithin_scan (Q : rune -> Prop) (rs : list rune) (m : scanner) :
  Forall validRune rs ->
  (forall r, In r rs -> Q r) ->
  (forall c, Q c -> Q (decodedEscape c)) ->
  runesWithin Q m -> runesWithin Q (scan m rs).
Proof.
  intros Hv Hq Hclosed. revert m.
  induction rs as [|c rs IH]; intros m Hm; [exact Hm|].
  inversion Hv as [|? ? Hc Hv']; subst.
  rewrite scan_cons. apply IH; [exact Hv' | |].
  - intros r Hr. apply Hq. right. exact Hr.
  - apply runesWithin_step; [exact Hc | apply Hq; left; reflexivity | | exact Hm].
    intros _. apply Hclosed, Hq. left. reflexivity.
Qed.

(** The backslash state is entered by a backslash only. *)
Lemma no_backslash_step (m : scanner) (c : rune) :
  state m <> stateBackslash -> lastState m <> stateBackslash ->
  c <> r_backslash ->
  state (step m c) <> stateBackslash /\ lastState (step m c) <> stateBackslash.
Proof.
  destruct m as [ts tk st sv]. cbn [state lastState]. intros Hst Hsv Hc.
  destruct st; try contradiction;
    cbv [step]; cbn [state tokens token lastState];
    rune_cases c; try contradiction; cbn [state lastState];
    split; (discriminate || assumption).
Qed.

Lemma runesWithin_scan_plain (Q : rune -> Prop) (rs : list rune)
      (m : scanner) :
  Forall validRune rs ->
  (forall r, In r rs -> Q r /\ r <> r_backslash) ->
  state m <> stateBackslash -> lastState m <> stateBackslash ->
  runesWithin Q m ->
  runesWithin Q (scan m rs).
Proof.
  intros Hv Hq. revert m.
  induction rs as [|c rs IH]; intros m Hst Hsv Hm; [exact Hm|].
  inversion Hv as [|? ? Hc Hv']; subst.
  destruct (Hq c (or_introl eq_refl)) as [HQ Hb].
  destruct (no_backslash_step m c Hst Hsv Hb) as [Hst' Hsv'].
  rewrite scan_cons. apply IH; try assumption.
  - intros r Hr. apply Hq. right. exact Hr.
  - apply runesWithin_step; try assumption. intros E. contradiction.
Qed.

(** The tokens after one more step, whatever the rune is. *)
Lemma step_tokens_within (Q : rune -> Prop) (m : scanner) (c : rune) :
  runesWithin Q m ->
  Forall (fun t => Forall Q (Utf8.rangeRunes (Value t))) (tokens (step m c)).
Proof.
  destruct m as [ts tk st sv]. unfold runesWithin.
  cbn [tokens token]. intros (Hval & Htk & Hts).
  destruct st; cbv [step]; cbn [state tokens token lastState];
    rune_cases c; cbn [tokens];
    first [ exact Hts
          | apply Forall_app; split; [exact Hts|];
            constructor; [| constructor]; cbn [Value];
            rewrite rangeRunes_stringOfRunes by exact Hval; exact Htk ].
Qed.

Lemma runesWithin_start (Q : rune -> Prop) : runesWithin Q start.
Proof. repeat split; constructor. Qed.

Lemma decodedEscape_cases (c : rune) :
  decodedEscape c = c \/ decodedControl (decodedEscape c).
Proof.
  unfold decodedEscape, decodedControl. rune_cases c; cbn; auto 10.
Qed.

(** X12.  [Tokenize] makes up no characters: every rune of every value is
    a rune of the line or one of the six control characters that an escape
    decodes to. *)
Theorem value_runes_from_line (s : string) (t : Token) (r : rune) :
  In t (Tokenize s) ->
  In r (Utf8.rangeRunes (Value t)) ->
  In r (Utf8.rangeRunes s) \/ decodedControl r.
Proof.
  intros Ht Hr. rewrite Tokenize_last_space in Ht.
  set (Q := fun x => In x (Utf8.rangeRunes s) \/ decodedControl x).
  assert (H : runesWithin Q (scan start (Utf8.rangeRunes s))).
  { apply runesWithin_scan.
    - apply rangeRunes_valid.
    - intros x Hx. left. exact Hx.
    - intros c [Hc| Hc].
      + destruct (decodedEscape_cases c) as [-> | H]; [left; exact Hc|].
        right. exact H.
      + destruct (decodedEscape_cases c) as [-> | H]; right; assumption.
    - apply runesWithin_start. }
  apply (step_tokens_within Q _ r_space) in H.
  rewrite Forall_forall in H. specialize (H t Ht).
  rewrite Forall_forall in H. exact (H r Hr).
Qed.

Lemma value_runes_from_line_witness :
  let s := (sq ++ "a" ++ bs ++ "tb" ++ sq)%string in
  let t := mkToken TokenLiteral ("a" ++ tab ++ "b")%string in
  In t (Tokenize s)
  /\ In r_tab (Utf8.rangeRunes (Value t))
  /\ (In r_tab (Utf8.rangeRunes s) \/ decodedControl r_tab).
Proof.
  intros s t.
  assert (Ht : In t (Tokenize s)) by (left; vm_compute; reflexivity).
  assert (Hr : In r_tab (Utf8.rangeRunes (Value t)))
    by (right; left; vm_compute; reflexivity).
  split; [exact Ht|]. split; [exact Hr|].
  exact (value_runes_from_line s t r_tab Ht Hr).
Defined.

(** X13.  On a line without a backslash every rune of every value is a
    rune of the line. *)
Theorem value_runes_from_plain_line (s : string) (t : Token) (r : rune) :
  ~ In r_backslash (Utf8.rangeRunes s) ->
  In t (Tokenize s) ->
  In r (Utf8.rangeRunes (Value t)) ->
  In r (Utf8.rangeRunes s).
Proof.
  intros Hb Ht Hr. rewrite Tokenize_last_space in Ht.
  set (Q := fun x => In x (Utf8.rangeRunes s)).
  assert (H : runesWithin Q (scan start (Utf8.rangeRunes s))).
  { apply runesWithin_scan_plain; try (cbn; discriminate).
    - apply rangeRunes_valid.
    - intros x Hx. split; [exact Hx|]. intros ->. contradiction.
    - apply runesWithin_start. }
  apply (step_tokens_within Q _ r_space) in H.
  rewrite Forall_forall in H. specialize (H t Ht).
  rewrite Forall_forall in H. exact (H r Hr).
Qed.

Lemma value_runes_from_plain_line_witness :
  let s := ("x " ++ dq ++ "y z" ++ dq)%string in
  let t := mkToken TokenRegular "y z" in
  ~ In r_backslash (Utf8.rangeRunes s)
  /\ In t (Tokenize s)
  /\ In r_space (Utf8.rangeRunes (Value t))
  /\ In r_space (Utf8.rangeRunes s).
Proof.
  intros s t.
  assert (Hb : ~ In r_backslash (Utf8.rangeRunes s)).
  { intros H. vm_compute in H.
    repeat (destruct H as [H|H]; [discriminate H|]). destruct H. }
  assert (Ht : In t (Tokenize s)) by (right; left; vm_compute; reflexivity).
  assert (Hr : In r_space (Utf8.rangeRunes (Value t)))
    by (right; left; vm_compute; reflexivity).
  split; [exact Hb|]. split; [exact Ht|]. split; [exact Hr|].
  exact (value_runes_from_plain_line s t r_space Hb Ht Hr).
Defined.

(** ** The read loop *)

Lemma countNewlines_app (a b : string) :
  countNewlines (a ++ b) = (countNewlines a + countNewlines b)%nat.
Proof.
  induction a as [|x a IH]; [reflexivity|].
  cbn [append countNewlines]. rewrite IH. lia.
Qed.

Lemma countNewlines_digits (d : Decimal.uint) :
  countNewlines (NilEmpty.string_of_uint d) = 0%nat.
Proof. induction d; cbn; auto. Qed.

Lemma countNewlines_formatInt (i : nat) : countNewlines (formatInt i) = 0%nat.
Proof.
  unfold formatInt, NilZero.string_of_uint.
  destruct (Nat.to_uint i); try apply countNewlines_digits. reflexivity.
Qed.

Lemma countNewlines_typeTag (ty : TokenType) :
  countNewlines (typeTag ty) = 0%nat.
Proof. destruct ty; reflexivity. Qed.

Lemma byte_not_newline (a : ascii) :
  byteZ a <> 10 -> Ascii.eqb a (ascii_of_nat 10) = false.
Proof.
  intros H. destruct (Ascii.eqb_spec a (ascii_of_nat 10)) as [->|]; auto.
  exfalso. apply H. reflexivity.
Qed.

(** The encoding of a rune other than the newline has no newline byte: the
    bytes of a multi-byte encoding are all above 127. *)
Lemma countNewlines_encodeRune (r : rune) :
  validRune r -> r <> r_newline ->
  countNewlines (Utf8.encodeRune r) = 0%nat.
Proof.
  unfold validRune, Utf8.maxRune, Utf8.surrogateMin, Utf8.surrogateMax,
    r_newline.
  intros [Hr Hs] Hn. unfold Utf8.encodeRune.
  rewrite (Z.mod_small r (2 ^ 32)) by lia.
  unfold Utf8.rune1Max, Utf8.rune2Max, Utf8.rune3Max, Utf8.maxRune,
    Utf8.surrogateMin, Utf8.surrogateMax.
  destruct (Z.le_gt_cases r 127) as [H1|H1];
    [| destruct (Z.le_gt_cases r 2047) as [H2|H2];
       [| destruct (Z.le_gt_cases r 65535) as [H3|H3]]].
  - settle. cbn [countNewlines]. rewrite byte_not_newline; [reflexivity|].
    rewrite byteZ_byteOf, Z.mod_small by lia. exact Hn.
  - settle. cbn [countNewlines].
    rewrite !byte_not_newline; [reflexivity | |].
    + rewrite cont_byte0. dlia.
    + rewrite (lead_byte Utf8.t2 3 6 r 6);
        try (change (2 ^ 6) with 64; unfold Utf8.t2); (reflexivity || dlia).
  - assert (Hs' : r < 55296 \/ 57343 < r) by lia.
    replace ((1114111 <? r) || ((55296 <=? r) && (r <=? 57343))) with false
      by (destruct Hs'; settle; reflexivity).
    settle. cbn [countNewlines].
    rewrite !byte_not_newline; [reflexivity | | |].
    + rewrite cont_byte0. dlia.
    + rewrite (cont_byte r 6) by lia. dlia.
    + rewrite (lead_byte Utf8.t3 14 4 r 12);
        try (change (2 ^ 4) with 16; change (2 ^ 12) with 4096;
             unfold Utf8.t3); (reflexivity || dlia).
  - replace ((1114111 <? r) || ((55296 <=? r) && (r <=? 57343))) with false
      by (settle; reflexivity).
    settle. cbn [countNewlines].
    rewrite !byte_not_newline; [reflexivity | | | |].
    + rewrite cont_byte0. dlia.
    + rewrite (cont_byte r 6) by lia. dlia.
    + rewrite (cont_byte r 12) by lia. dlia.
    + rewrite (lead_byte Utf8.t4 30 3 r 18);
        try (change (2 ^ 3) with 8; change (2 ^ 18) with 262144;
             unfold Utf8.t4); (reflexivity || dlia).
Qed.

Lemma countNewlines_stringOfRunes (rs : list rune) :
  Forall validRune rs -> ~ In r_newline rs ->
  countNewlines (Utf8.stringOfRunes rs) = 0%nat.
Proof.
  induction 1 as [|r rs Hr _ IH]; intros Hn; [reflexivity|].
  cbn [Utf8.stringOfRunes]. rewrite countNewlines_app.
  rewrite countNewlines_encodeRune; [| exact Hr |].
  - apply IH. intros H. apply Hn. right. exact H.
  - intros ->. apply Hn. left. reflexivity.
Qed.

Lemma plain_value_no_newline (line : string) (t : Token) :
  ~ In r_backslash (Utf8.rangeRunes line) ->
  ~ In r_newline (Utf8.rangeRunes line) ->
  In t (Tokenize line) ->
  countNewlines (Value t) = 0%nat.
Proof.
  intros Hb Hn Ht.
  rewrite <- (Tokenize_wellFormed line t Ht).
  apply countNewlines_stringOfRunes; [apply rangeRunes_valid|].
  rewrite Tokenize_last_space in Ht.
  set (Q := fun x : rune => x <> r_newline).
  assert (H : runesWithin Q (scan start (Utf8.rangeRunes line))).
  { apply runesWithin_scan_plain; try (cbn; discriminate).
    - apply rangeRunes_valid.
    - intros x Hx. split; intros ->; contradiction.
    - apply runesWithin_start. }
  apply (step_tokens_within Q _ r_space) in H.
  rewrite Forall_forall in H. specialize (H t Ht).
  rewrite Forall_forall in H. intros Hin. exact (H r_newline Hin eq_refl).
Qed.

Lemma countNewlines_printTokens (ts : list Token) (i : nat) :
  (forall t, In t ts -> countNewlines (Value t) = 0%nat) ->
  countNewlines (printTokens i ts) = List.length ts.
Proof.
  revert i. induction ts as [|t ts IH]; intros i Hall; [reflexivity|].
  cbn [printTokens List.length]. rewrite !countNewlines_app.
  rewrite countNewlines_formatInt, countNewlines_typeTag.
  rewrite (Hall t (or_introl eq_refl)).
  rewrite IH by (intros u Hu; apply Hall; right; exact Hu).
  reflexivity.
Qed.

Lemma countNewlines_printLine (line : string) :
  ~ In r_backslash (Utf8.rangeRunes line) ->
  ~ In r_newline (Utf8.rangeRunes line) ->
  countNewlines (printLine line) = List.length (Tokenize line).
Proof.
  intros Hb Hn. unfold printLine. rewrite countNewlines_app.
  rewrite countNewlines_printTokens
    by (intros t Ht; apply (plain_value_no_newline line); assumption).
  cbn. lia.
Qed.

(** X14.  When no line read holds a backslash (or a newline, which a line
    of the scanner never does), [main] prints one line for each token: the
    number of newlines written is the number of tokens of all the lines. *)
Theorem main_one_line_per_token (lines : list string) :
  (forall line, In line lines ->
     ~ In r_backslash (Utf8.rangeRunes line)
     /\ ~ In r_newline (Utf8.rangeRunes line)) ->
  countNewlines (mainOutput lines) = tokenCount lines.
Proof.
  unfold mainOutput.
  assert (G : forall acc,
             (forall line, In line lines ->
                ~ In r_backslash (Utf8.rangeRunes line)
                /\ ~ In r_newline (Utf8.rangeRunes line)) ->
             countNewlines
               (fold_left (fun out line => (out ++ printLine line)%string)
                          lines acc)
             = (countNewlines acc + tokenCount lines)%nat).
  { induction lines as [|l ls IH]; intros acc Hall; [cbn; lia|].
    cbn [fold_left tokenCount fold_right].
    rewrite IH by (intros x Hx; apply Hall; right; exact Hx).
    rewrite countNewlines_app.
    destruct (Hall l (or_introl eq_refl)) as [Hb Hn].
    rewrite countNewlines_printLine by assumption.
    fold (tokenCount ls). lia. }
  intros Hall. rewrite G by exact Hall. reflexivity.
Qed.

Lemma main_one_line_per_token_witness :
  let lines := ["ls -l"%string; (sq ++ "a b" ++ sq ++ " c")%string] in
  (forall line, In line lines ->
     ~ In r_backslash (Utf8.rangeRunes line)
     /\ ~ In r_newline (Utf8.rangeRunes line))
  /\ countNewlines (mainOutput lines) = 4%nat.
Proof.
  intros lines.
  assert (H : forall line, In line lines ->
                ~ In r_backslash (Utf8.rangeRunes line)
                /\ ~ In r_newline (Utf8.rangeRunes line)).
  { intros line [<-| [<-| []]]; split; intros H; vm_compute in H;
      repeat (destruct H as [H|H]; [discriminate H|]); destruct H. }
  split; [exact H|].
  rewrite (main_one_line_per_token lines H). vm_compute. reflexivity.
Defined.

Lemma printLine_blank (line : string) :
  (forall r, In r (Utf8.rangeRunes line) -> r = r_space) ->
  printLine line = "> "%string.
Proof.
  intros Hall. unfold printLine. rewrite Tokenize_last_space. unfold start.
  rewrite scan_spaces by exact Hall. reflexivity.
Qed.

Lemma prompts_snoc (n : nat) :
  (prompts n ++ "> ")%string = prompts (S n).
Proof.
  induction n as [|n IH]; [reflexivity|].
  cbn [prompts] in *. rewrite string_app_assoc, IH. reflexivity.
Qed.

(** X15.  For lines that are empty or hold spaces only, [main] prints
    prompts and nothing else: one at the start and one after each line. *)
Theorem main_blank_lines (lines : list string) :
  (forall line r, In line lines -> In r (Utf8.rangeRunes line) ->
                  r = r_space) ->
  mainOutput lines = prompts (S (List.length lines)).
Proof.
  assert (G : forall k,
             (forall line r, In line lines ->
                             In r (Utf8.rangeRunes line) -> r = r_space) ->
             fold_left (fun out line => (out ++ printLine line)%string)
                       lines (prompts k)
             = prompts (k + List.length lines)).
  { induction lines as [|l ls IH]; intros k Hall.
    - cbn. rewrite Nat.add_0_r. reflexivity.
    - cbn [fold_left List.length].
      rewrite printLine_blank by (intros r Hr; apply (Hall l); [left|]; auto).
      rewrite prompts_snoc.
      rewrite IH by (intros x r Hx; apply Hall; right; exact Hx).
      f_equal. lia. }
  intros Hall. unfold mainOutput. change "> "%string with (prompts 1).
  rewrite G by exact Hall. reflexivity.
Qed.

Lemma main_blank_lines_witness :
  let lines := [""%string; "   "%string] in
  (forall line r, In line lines -> In r (Utf8.rangeRunes line) ->
                  r = r_space)
  /\ mainOutput lines = "> > > "%string.
Proof.
  intros lines.
  assert (H : forall line r, In line lines ->
                In r (Utf8.rangeRunes line) -> r = r_space).
  { intros line r [<-| [<-| []]] Hr; vm_compute in Hr;
      repeat (destruct Hr as [<-|Hr]; [reflexivity|]); destruct Hr. }
  split; [exact H|].
  exact (main_blank_lines lines H).
Defined.

(** ** Quoted spans with escapes *)







